(** * EmeraldSecrets storefront scripts: request/response update protocol

    A shallow embedding of the browser-side scripts (search, filter, cart,
    affiliate and the shared utilities) together with the properties the
    specification states about them.

    Conventions of the embedding.
    - A JavaScript string is represented by the bytes of its UTF-8 encoding
      (a Rocq [string]); the scripts only ever compare, split, trim and
      percent-encode strings, and those operations commute with the encoding
      for well-formed strings.  A surrogate code unit that has no partner has
      no UTF-8 encoding: it is written by the three bytes of the generalized
      encoding (237, then a byte from 160 to 191, then a continuation byte),
      which well-formed text never contains; a surrogate pair is always
      written by the four bytes of its code point.  A search term can hold
      such a code unit (a suggestions answer can carry one), and
      [encodeURIComponent] throws on it; the values of the filter controls
      and the cookie string are well-formed text.
    - A handler is a computation in the monad [M]: it emits the effects it has
      on the browser (requests, toasts, navigation, timers) in program order
      and either returns or throws.  The continuation of a [fetch] promise is
      appended after the synchronous part of the handler that issued it.
    - Everything read from the browser (cookie jar, DOM, the answer to a
      [confirm] dialog, the URL registry, what the network answers) is a field
      of the record [page].
    - Identifiers interpolated into a URL or an element id ([productId],
      [itemId]) are given by the string they are converted to; the quantity
      handed to [updateQuantity] is a Number (not-a-number and the infinities
      included). *)

From Stdlib Require Import String Ascii List Bool Arith ZArith QArith Lia.
From Stdlib Require Import DecimalString Qround.
Import ListNotations.

Local Close Scope Q_scope.
Local Open Scope list_scope.
Local Open Scope string_scope.

(** ** Strings *)

Module Str.

Fixpoint prefixb (p s : string) : bool :=
  match p, s with
  | EmptyString, _ => true
  | String a p', String b s' => Ascii.eqb a b && prefixb p' s'
  | String _ _, EmptyString => false
  end.

Fixpoint drop (n : nat) (s : string) : string :=
  match n, s with
  | O, _ => s
  | S n', String _ s' => drop n' s'
  | S _, EmptyString => EmptyString
  end.

Fixpoint rev_onto (s acc : string) : string :=
  match s with
  | EmptyString => acc
  | String c s' => rev_onto s' (String c acc)
  end.

Definition rev (s : string) : string := rev_onto s EmptyString.

(** [s.split(sep)] for a one-character separator: the pieces between the
    separators, in order; a string without separator is its only piece. *)
Fixpoint split (sep : ascii) (s : string) : list string :=
  match s with
  | EmptyString => [EmptyString]
  | String c s' =>
      if Ascii.eqb c sep then EmptyString :: split sep s'
      else match split sep s' with
           | [] => [String c EmptyString]
           | piece :: pieces => String c piece :: pieces
           end
  end.

(** [name] occurs somewhere inside [s]. *)
Definition occurs (name s : string) : Prop :=
  exists before after, s = before ++ name ++ after.

Fixpoint occursb (name s : string) : bool :=
  prefixb name s ||
  match s with
  | EmptyString => false
  | String _ s' => occursb name s'
  end.

End Str.

(** ** White space

    The code points [String.prototype.trim], [parseInt] and [parseFloat]
    skip (WhiteSpace and LineTerminator of ECMA-262), each given by its UTF-8
    encoding. *)

Definition bytes (l : list nat) : string :=
  string_of_list_ascii (map ascii_of_nat l).

Definition js_whitespace : list string :=
  map bytes
    [ [9]; [10]; [11]; [12]; [13]; [32];          (* TAB LF VT FF CR SP *)
      [194; 160];                                  (* U+00A0 *)
      [225; 154; 128];                             (* U+1680 *)
      [226; 128; 128]; [226; 128; 129]; [226; 128; 130]; [226; 128; 131];
      [226; 128; 132]; [226; 128; 133]; [226; 128; 134]; [226; 128; 135];
      [226; 128; 136]; [226; 128; 137]; [226; 128; 138];   (* U+2000..U+200A *)
      [226; 128; 168]; [226; 128; 169];            (* U+2028 U+2029 *)
      [226; 128; 175];                             (* U+202F *)
      [226; 129; 159];                             (* U+205F *)
      [227; 128; 128];                             (* U+3000 *)
      [239; 187; 191] ].                           (* U+FEFF *)

(** A string made of white space only (the empty string included). *)
Inductive blank : string -> Prop :=
| blank_empty : blank EmptyString
| blank_more w s : In w js_whitespace -> blank s -> blank (w ++ s).

(** One white-space code point removed from the front, if there is one. *)
Fixpoint strip_first (ws : list string) (s : string) : option string :=
  match ws with
  | [] => None
  | w :: ws' =>
      if Str.prefixb w s then Some (Str.drop (String.length w) s)
      else strip_first ws' s
  end.

Definition strip_ws (s : string) : option string := strip_first js_whitespace s.

Fixpoint trim_fuel (strip : string -> option string) (fuel : nat) (s : string)
  : string :=
  match fuel with
  | O => s
  | S fuel' =>
      match strip s with
      | Some rest => trim_fuel strip fuel' rest
      | None => s
      end
  end.

Definition trimStart (s : string) : string :=
  trim_fuel strip_ws (String.length s) s.

(** The same from the back: the reversed string loses reversed code points. *)
Definition strip_ws_rev (s : string) : option string :=
  strip_first (map Str.rev js_whitespace) s.

Definition trimEnd (s : string) : string :=
  Str.rev (trim_fuel strip_ws_rev (String.length s) (Str.rev s)).

(** [s.trim()] *)
Definition trim (s : string) : string := trimEnd (trimStart s).

(** ** Values *)

(** A Number: not-a-number, an infinity, or a finite value given by the
    rational it denotes.  Rounding of a decimal literal to the nearest double
    is modelled where it changes the kind of the result (underflow to zero,
    overflow to an infinity), not in the low bits of the mantissa. *)
Inductive number : Type :=
| NaN
| Inf (negative : bool)
| Fin (q : Q).

Definition of_Z (z : Z) : number := Fin (inject_Z z).

(** The values the scripts handle: what JSON can carry, and [undefined].
    In a [JObj] the first binding of a name is the property of that name. *)
#[warnings="-register-all"]
Inductive jsval : Type :=
| JUndefined
| JNull
| JBool (b : bool)
| JNum (n : number)
| JStr (s : string)
| JArr (items : list jsval)
| JObj (fields : list (string * jsval)).

Inductive exn : Type := URIError | TypeError.

Inductive result (A : Type) : Type :=
| Ok (a : A)
| Throw (e : exn).
Arguments Ok {A} a.
Arguments Throw {A} e.

Definition nonempty (s : string) : bool :=
  match s with EmptyString => false | String _ _ => true end.

(** ToBoolean *)
Definition truthy (v : jsval) : bool :=
  match v with
  | JUndefined | JNull => false
  | JBool b => b
  | JNum NaN => false
  | JNum (Inf _) => true
  | JNum (Fin q) => negb (Qeq_bool q 0)
  | JStr s => nonempty s
  | JArr _ | JObj _ => true
  end.

(** [a || b] *)
Definition or_else (a b : jsval) : jsval := if truthy a then a else b.

Fixpoint assoc {A : Type} (k : string) (l : list (string * A)) : option A :=
  match l with
  | [] => None
  | (k', v) :: rest => if String.eqb k k' then Some v else assoc k rest
  end.

(** [v.k] for the property names the scripts read from a parsed JSON value
    ([success], [message], [count]): none of them lives on a prototype, so a
    primitive or an array answers [undefined], and [null] throws. *)
Definition get_prop (v : jsval) (k : string) : result jsval :=
  match v with
  | JUndefined | JNull => Throw TypeError
  | JObj fields =>
      match assoc k fields with
      | Some x => Ok x
      | None => Ok JUndefined
      end
  | _ => Ok JUndefined
  end.

(** ** Percent-encoding *)

Definition hex_digit (n : nat) : ascii :=
  ascii_of_nat (if n <? 10 then 48 + n else 55 + n)%nat.

Definition percent (c : ascii) : string :=
  let n := nat_of_ascii c in
  String "%" (String (hex_digit (n / 16)) (String (hex_digit (n mod 16)) EmptyString)).

Definition in_range (lo hi : nat) (c : ascii) : bool :=
  let n := nat_of_ascii c in (lo <=? n)%nat && (n <=? hi)%nat.

Definition is_digit (c : ascii) : bool := in_range 48 57 c.
Definition is_alpha (c : ascii) : bool := in_range 65 90 c || in_range 97 122 c.

Definition one_of (set : string) (c : ascii) : bool :=
  existsb (Ascii.eqb c) (list_ascii_of_string set).

(** The characters [encodeURIComponent] leaves alone. *)
Definition uri_unreserved (c : ascii) : bool :=
  is_alpha c || is_digit c || one_of "-_.!~*'()" c.

(** Every octet that is not left alone written as [%XX]. *)
Fixpoint uri_escape (s : string) : string :=
  match s with
  | EmptyString => EmptyString
  | String c s' =>
      (if uri_unreserved c then String c EmptyString else percent c)
      ++ uri_escape s'
  end.

(** [s] begins with a surrogate code unit that has no partner. *)
Definition unpaired_surrogate (s : string) : bool :=
  match s with
  | String c (String d _) => (nat_of_ascii c =? 237)%nat && in_range 160 191 d
  | _ => false
  end.

(** [s.isWellFormed()]: no surrogate code unit of [s] is without partner. *)
Fixpoint isWellFormed (s : string) : bool :=
  match s with
  | EmptyString => true
  | String _ s' => negb (unpaired_surrogate s) && isWellFormed s'
  end.

(** [encodeURIComponent]: throws [URIError] when the string holds a
    surrogate code unit without partner; otherwise the octets of the UTF-8
    encoding are escaped. *)
Definition encodeURIComponent (s : string) : result string :=
  if isWellFormed s then Ok (uri_escape s) else Throw URIError.

Definition hex_val (c : ascii) : option nat :=
  let n := nat_of_ascii c in
  if is_digit c then Some (n - 48)%nat
  else if in_range 65 70 c then Some (n - 55)%nat
  else if in_range 97 102 c then Some (n - 87)%nat
  else None.

(** What [decodeURIComponent] reads: a character standing for itself, or an
    octet written as [%XX]. *)
Inductive uri_item : Type :=
| Plain (c : ascii)
| Octet (b : ascii).

Fixpoint uri_items (s : string) : option (list uri_item) :=
  match s with
  | EmptyString => Some []
  | String "%" (String h1 (String h2 rest)) =>
      match hex_val h1, hex_val h2 with
      | Some a, Some b =>
          option_map (cons (Octet (ascii_of_nat (16 * a + b)))) (uri_items rest)
      | _, _ => None
      end
  | String "%" _ => None
  | String c rest => option_map (cons (Plain c)) (uri_items rest)
  end.

(** For the first octet of a multi-byte UTF-8 sequence: how many octets
    follow and the range the next one must lie in (the well-formed sequences
    of the Unicode standard: no overlong form, no surrogate, nothing above
    U+10FFFF). *)
Definition utf8_lead (b : ascii) : option (nat * nat * nat) :=
  let n := nat_of_ascii b in
  if in_range 194 223 b then Some (1, 128, 191)
  else if (n =? 224)%nat then Some (2, 160, 191)
  else if in_range 225 236 b || in_range 238 239 b then Some (2, 128, 191)
  else if (n =? 237)%nat then Some (2, 128, 159)
  else if (n =? 240)%nat then Some (3, 144, 191)
  else if in_range 241 243 b then Some (3, 128, 191)
  else if (n =? 244)%nat then Some (3, 128, 143)
  else None.

Definition continuation (c : ascii) : bool := in_range 128 191 c.

Fixpoint utf8_octets (l : list uri_item) : option string :=
  match l with
  | [] => Some EmptyString
  | Plain c :: rest => option_map (String c) (utf8_octets rest)
  | Octet b :: rest =>
      if (nat_of_ascii b <? 128)%nat then option_map (String b) (utf8_octets rest)
      else
        match utf8_lead b with
        | Some (1, lo, hi) =>
            match rest with
            | Octet c1 :: rest1 =>
                if in_range lo hi c1
                then option_map (fun t => String b (String c1 t)) (utf8_octets rest1)
                else None
            | _ => None
            end
        | Some (2, lo, hi) =>
            match rest with
            | Octet c1 :: Octet c2 :: rest2 =>
                if in_range lo hi c1 && continuation c2
                then option_map (fun t => String b (String c1 (String c2 t)))
                                (utf8_octets rest2)
                else None
            | _ => None
            end
        | Some (3, lo, hi) =>
            match rest with
            | Octet c1 :: Octet c2 :: Octet c3 :: rest3 =>
                if in_range lo hi c1 && continuation c2 && continuation c3
                then option_map
                       (fun t => String b (String c1 (String c2 (String c3 t))))
                       (utf8_octets rest3)
                else None
            | _ => None
            end
        | _ => None
        end
  end.

(** [decodeURIComponent]: throws [URIError] on a [%] that is not followed by
    two hexadecimal digits and on octets that are not well-formed UTF-8. *)
Definition decodeURIComponent (s : string) : result string :=
  match uri_items s with
  | None => Throw URIError
  | Some items =>
      match utf8_octets items with
      | None => Throw URIError
      | Some t => Ok t
      end
  end.

(** The serializer behind [URLSearchParams.prototype.toString]
    (application/x-www-form-urlencoded): letters, digits and [*-._] stand for
    themselves, a space becomes [+], every other octet is percent-encoded;
    pairs are written [name=value] and joined by [&]. *)
Definition form_byte (c : ascii) : string :=
  if is_alpha c || is_digit c || one_of "*-._" c then String c EmptyString
  else if Ascii.eqb c " " then "+"
  else percent c.

Fixpoint form_encode (s : string) : string :=
  match s with
  | EmptyString => EmptyString
  | String c s' => form_byte c ++ form_encode s'
  end.

Definition form_pair (kv : string * string) : string :=
  form_encode (fst kv) ++ "=" ++ form_encode (snd kv).

Definition URLSearchParams_toString (params : list (string * string)) : string :=
  String.concat "&" (map form_pair params).

(** The parser a page uses to read a query string back
    ([new URLSearchParams(location.search)], application/x-www-form-urlencoded
    parsing): split on [&], drop empty pieces, cut each piece at its first
    [=], turn [+] into a space and undo the percent-encoding (a [%] that is
    not followed by two hexadecimal digits stands for itself). *)
Fixpoint break_at (sep : ascii) (s : string) : string * string :=
  match s with
  | EmptyString => (EmptyString, EmptyString)
  | String c s' =>
      if Ascii.eqb c sep then (EmptyString, s')
      else let '(before, after) := break_at sep s' in (String c before, after)
  end.

Fixpoint plus_to_space (s : string) : string :=
  match s with
  | EmptyString => EmptyString
  | String c s' =>
      String (if Ascii.eqb c "+" then " "%char else c) (plus_to_space s')
  end.

Fixpoint percent_decode (s : string) : string :=
  match s with
  | EmptyString => EmptyString
  | String c rest =>
      if Ascii.eqb c "%" then
        match rest with
        | String h1 (String h2 rest') =>
            match hex_val h1, hex_val h2 with
            | Some a, Some b =>
                String (ascii_of_nat (16 * a + b)) (percent_decode rest')
            | _, _ => String c (percent_decode rest)
            end
        | _ => String c (percent_decode rest)
        end
      else String c (percent_decode rest)
  end.

Definition form_decode (s : string) : string :=
  percent_decode (plus_to_space s).

Definition parse_pair (piece : string) : string * string :=
  let '(name, v) := break_at "=" piece in (form_decode name, form_decode v).

Definition parse_query (search : string) : list (string * string) :=
  map parse_pair (filter nonempty (Str.split "&" search)).

(** ** Numbers in text *)

Fixpoint take_while (p : ascii -> bool) (s : string) : string * string :=
  match s with
  | EmptyString => (EmptyString, EmptyString)
  | String c s' =>
      if p c then let '(taken, rest) := take_while p s' in (String c taken, rest)
      else (EmptyString, s)
  end.

Definition digit_val (radix : nat) (c : ascii) : option nat :=
  match hex_val c with
  | Some d => if (d <? radix)%nat then Some d else None
  | None => None
  end.

Definition is_radix_digit (radix : nat) (c : ascii) : bool :=
  match digit_val radix c with Some _ => true | None => false end.

Definition digits_value (radix : nat) (digits : string) : Z :=
  fold_left
    (fun acc c =>
       match digit_val radix c with
       | Some d => (acc * Z.of_nat radix + Z.of_nat d)%Z
       | None => acc
       end)
    (list_ascii_of_string digits) 0%Z.

Definition take_sign (s : string) : bool * string :=
  match s with
  | String "-" rest => (true, rest)
  | String "+" rest => (false, rest)
  | _ => (false, s)
  end.

Definition signed (negative : bool) (z : Z) : Z :=
  if negative then (- z)%Z else z.

(** [parseInt(s)] without a radix argument. *)
Definition parseInt (s : string) : number :=
  let '(negative, s1) := take_sign (trimStart s) in
  let '(radix, s2) :=
    match s1 with
    | String "0" (String x rest) =>
        if one_of "xX" x then (16%nat, rest) else (10%nat, s1)
    | _ => (10%nat, s1)
    end in
  let '(digits, _) := take_while (is_radix_digit radix) s2 in
  if nonempty digits then of_Z (signed negative (digits_value radix digits))
  else NaN.

(** Number::toString of an integer-valued Number below 10^21 in magnitude:
    its decimal digits. *)
Definition int_to_string (z : Z) : string :=
  NilZero.string_of_int (Z.to_int z).

(** Where rounding to the nearest double leaves the finite range: at most
    half the least subnormal gives zero, at least the midpoint above the
    largest double gives an infinity. *)
Definition to_double (negative : bool) (q : Q) : number :=
  if Qle_bool q (Qpower 2 (-1075)) then Fin 0
  else if Qle_bool (Qpower 2 1024 - Qpower 2 970) q then Inf negative
  else Fin (Qred (if negative then - q else q)).

(** [parseFloat(s)]: the longest prefix that is a decimal literal. *)
Definition parseFloat (s : string) : number :=
  let '(negative, s1) := take_sign (trimStart s) in
  if Str.prefixb "Infinity" s1 then Inf negative
  else
    let '(int_part, r1) := take_while is_digit s1 in
    let '(frac_part, r2) :=
      match r1 with
      | String "." rest => take_while is_digit rest
      | _ => (EmptyString, r1)
      end in
    if nonempty int_part || nonempty frac_part then
      let exponent :=
        match r2 with
        | String c rest =>
            if one_of "eE" c then
              let '(eneg, r3) := take_sign rest in
              let '(edigits, _) := take_while is_digit r3 in
              if nonempty edigits then signed eneg (digits_value 10 edigits)
              else 0%Z
            else 0%Z
        | EmptyString => 0%Z
        end in
      let mantissa := digits_value 10 (int_part ++ frac_part) in
      to_double negative
        (inject_Z mantissa
         * Qpower 10 (exponent - Z.of_nat (String.length frac_part)))%Q
    else NaN.

(** [n <= 0] *)
Definition le_zero (n : number) : bool :=
  match n with
  | NaN => false
  | Inf negative => negative
  | Fin q => Qle_bool q 0
  end.

(** [n < 1] *)
Definition lt_one (n : number) : bool :=
  match n with
  | NaN => false
  | Inf negative => negative
  | Fin q => negb (Qle_bool 1 q)
  end.

Fixpoint zeros (n : nat) : string :=
  match n with O => EmptyString | S n' => String "0" (zeros n') end.

(** [n.toFixed(2)].  ECMA-262 picks the integer [k] for which [k / 100 - x]
    is closest to zero, the larger one on a tie, and writes its digits with
    the point before the last two.  From 10^21 on the method falls back to
    Number::toString (exponent notation), which is outside this model: [None]. *)
Definition toFixed2 (n : number) : option string :=
  match n with
  | NaN => Some "NaN"
  | Inf negative => Some (if negative then "-Infinity" else "Infinity")
  | Fin q =>
      let negative := negb (Qle_bool 0 q) in
      let x := if negative then (- q)%Q else q in
      if Qle_bool (Qpower 10 21) x then None
      else
        let k := Qfloor (x * 100 + (1 # 2))%Q in
        let digits := int_to_string k in
        let padded := zeros (3 - String.length digits) ++ digits in
        let cut := (String.length padded - 2)%nat in
        Some ((if negative then "-" else "")
              ++ String.substring 0 cut padded ++ "." ++ Str.drop cut padded)
  end.

(** ** The grouping regular expression

    [s.replace(/\B(?=(\d{3})+(?!\d))/g, ',')]: the pattern matches the empty
    string at every position that is not a word boundary and is followed by a
    run of digits whose length is a positive multiple of three. *)
Definition is_word (c : ascii) : bool :=
  is_alpha c || is_digit c || Ascii.eqb c "_".

Definition word_before (prev : option ascii) : bool :=
  match prev with Some c => is_word c | None => false end.

Definition digit_run (s : string) : nat :=
  String.length (fst (take_while is_digit s)).

Definition groups_ahead (s : string) : bool :=
  let d := digit_run s in (0 <? d)%nat && (d mod 3 =? 0)%nat.

Fixpoint group_from (prev : option ascii) (s : string) : string :=
  match s with
  | EmptyString => EmptyString
  | String c s' =>
      let sep :=
        if Bool.eqb (word_before prev) (is_word c) && groups_ahead s
        then "," else "" in
      sep ++ String c (group_from (Some c) s')
  end.

Definition group_thousands (s : string) : string := group_from None s.

(** [formatCurrency(amount)] for a Number [amount], on which [parseFloat] is
    the identity. *)
Definition formatCurrency (amount : number) : option string :=
  option_map (fun fixed => "₹" ++ group_thousands fixed) (toFixed2 amount).

(** ** The browser as the scripts see it *)

Inductive body : Type :=
| JsonBody (fields : list (string * jsval))   (* JSON.stringify({ ... }) *)
| FormData (entries : list (string * string)).

Record request : Type := {
  url : string;
  method : string;
  headers : list (string * jsval);
  payload : option body
}.

(** [fetch(u)] with no init object. *)
Definition get_request (u : string) : request :=
  {| url := u; method := "GET"; headers := []; payload := None |}.

(** What comes back: the promise rejects (transport failure), or a response
    arrives with its [ok] flag and a body that parses as JSON or does not. *)
Inductive response : Type :=
| NetworkError
| Http (ok : bool) (json : option jsval).

Record element : Type := {
  value : option string;                 (* [.value], absent on non-inputs *)
  form_entries : list (string * string)  (* what [new FormData(el)] collects *)
}.

Record registry : Type := {
  cartCount : option string;
  wishlistCount : option string
}.

Record page : Type := {
  document_cookie : string;
  getElementById : string -> option element;
  confirm : string -> bool;
  URLS : option registry;                (* [window.URLS], page-injected *)
  server : request -> response
}.

Inductive task : Type :=
| RemoveAlert                            (* [div.remove()] *)
| ReloadPage.                            (* [location.reload()] *)

Inductive effect : Type :=
| Fetch (req : request)
| InsertAlert (className : string) (textContent : jsval)
| SetTimeout (callback : task) (ms : nat)
| Reload
| SetHref (href : string)
| SetSearch (search : string)
| Confirm (message : string)
| ConsoleLog (label : string)
| ConsoleError (label : string)
| SetTextContent (id : string) (v : jsval).

(** ** Handlers as computations *)

Definition M (A : Type) : Type := list effect * result A.

Definition ret {A} (a : A) : M A := ([], Ok a).

Definition bind {A B} (m : M A) (k : A -> M B) : M B :=
  match m with
  | (t, Ok a) => let '(t', r) := k a in ((t ++ t')%list, r)
  | (t, Throw e) => (t, Throw e)
  end.

Definition emit (e : effect) : M unit := ([e], Ok tt).

Definition lift {A} (r : result A) : M A := ([], r).

(** [m] with a rejection handled by [handler]. *)
Definition catch (m : M unit) (handler : M unit) : M unit :=
  match m with
  | (t, Ok a) => (t, Ok a)
  | (t, Throw _) => let '(t', r) := handler in ((t ++ t')%list, r)
  end.

(** A promise chain nobody awaits: its effects happen, a rejection that
    reaches its end is dropped. *)
Definition detached (m : M unit) : M unit := (fst m, Ok tt).

Definition effects {A} (m : M A) : list effect := fst m.

Declare Scope handler_scope.
Delimit Scope handler_scope with handler.
Notation "x <- m ;; k" := (bind m (fun x => k))
  (at level 61, m at next level, right associativity) : handler_scope.
Notation "m ;; k" := (bind m (fun _ => k))
  (at level 61, right associativity) : handler_scope.
Local Open Scope handler_scope.

(** [p.then(on_data).catch(on_error)] once [p] has settled: [None] is a
    rejected [p]. *)
Definition then_catch (settled : option jsval)
    (on_data : jsval -> M unit) (on_error : M unit) : M unit :=
  detached
    match settled with
    | Some data => catch (on_data data) on_error
    | None => on_error
    end.

(** [response => response.json()] *)
Definition response_json (r : response) : option jsval :=
  match r with
  | NetworkError => None
  | Http _ json => json
  end.

(** [response => { if (!response.ok) throw ...; return response.json(); }] *)
Definition ok_response_json (r : response) : option jsval :=
  match r with
  | NetworkError => None
  | Http ok json => if ok then json else None
  end.

Definition element_value (e : option element) : option string :=
  match e with
  | Some el => value el
  | None => None
  end.

(** ** main.js *)

Definition showMessage (message : jsval) (type : string) : M unit :=
  emit (InsertAlert ("alert alert-" ++ type) message) ;;
  emit (SetTimeout RemoveAlert 5000).

Definition confirmAction (pg : page) (message : string) : M bool :=
  emit (Confirm message) ;; ret (confirm pg message).

Definition updateCartCount (pg : page) : M unit :=
  match URLS pg with
  | None => emit (ConsoleLog "Cart count URL not available")
  | Some urls =>
      match cartCount urls with
      | Some (String c u') =>
          let req := get_request (String c u') in
          emit (Fetch req) ;;
          then_catch (ok_response_json (server pg req))
            (fun data =>
               match getElementById pg "cartCount" with
               | Some _ =>
                   count <- lift (get_prop data "count") ;;
                   emit (SetTextContent "cartCount" count)
               | None => ret tt
               end)
            (emit (ConsoleLog "Cart count error:"))
      | _ => emit (ConsoleLog "Cart count URL not available")
      end
  end.

Definition updateWishlistCount (pg : page) : M unit :=
  match URLS pg with
  | None => emit (ConsoleLog "Wishlist count URL not available")
  | Some urls =>
      match wishlistCount urls with
      | Some (String c u') =>
          let req := get_request (String c u') in
          emit (Fetch req) ;;
          then_catch (ok_response_json (server pg req))
            (fun data =>
               match getElementById pg "wishlistCount" with
               | Some _ =>
                   count <- lift (get_prop data "count") ;;
                   emit (SetTextContent "wishlistCount" count)
               | None => ret tt
               end)
            (emit (ConsoleLog "Wishlist count error:"))
      | _ => emit (ConsoleLog "Wishlist count URL not available")
      end
  end.

(** ** The cookie reader (cart script and affiliate script carry the same
    text) *)

Fixpoint scan_cookies (name : string) (cookies : list string) : result jsval :=
  match cookies with
  | [] => Ok JNull
  | c :: rest =>
      let cookie := trim c in
      if String.eqb (String.substring 0 (String.length name + 1) cookie)
                    (name ++ "=")
      then
        match decodeURIComponent (Str.drop (String.length name + 1) cookie) with
        | Ok v => Ok (JStr v)
        | Throw e => Throw e
        end
      else scan_cookies name rest
  end.

Definition getCookie (document_cookie : string) (name : string) : result jsval :=
  if nonempty document_cookie
  then scan_cookies name (Str.split ";" document_cookie)
  else Ok JNull.

(** [fetch(url, init).then(response => response.json()).then(on_data)
    .catch(on_error)] *)
Definition fetch_json (pg : page) (req : request)
    (on_data : jsval -> M unit) (on_error : M unit) : M unit :=
  emit (Fetch req) ;;
  then_catch (response_json (server pg req)) on_data on_error.

(** ** Search script *)

Definition searchProducts (query : string) : M unit :=
  if negb (nonempty query) || String.eqb (trim query) ""
  then showMessage (JStr "Please enter search term") "warning"
  else
    encoded <- lift (encodeURIComponent query) ;;
    emit (SetHref ("/products/search/?q=" ++ encoded)).

(** ** Filter script *)

Definition append_if (name : string) (v : option string)
    (params : list (string * string)) : list (string * string) :=
  match v with
  | Some (String c v') => (params ++ [(name, String c v')])%list
  | _ => params
  end.

Definition applyFilters (pg : page) : M unit :=
  let category := element_value (getElementById pg "categoryFilter") in
  let minPrice := element_value (getElementById pg "minPrice") in
  let maxPrice := element_value (getElementById pg "maxPrice") in
  let sort := element_value (getElementById pg "sortFilter") in
  let params := [] in
  let params := append_if "category" category params in
  let params := append_if "min_price" minPrice params in
  let params := append_if "max_price" maxPrice params in
  let params := append_if "sort" sort params in
  emit (SetSearch (URLSearchParams_toString params)).

(** ** Cart script *)

(** [x?.value || 1]: the non-empty text of the input, else the Number 1. *)
Definition value_or_one (e : option element) : string + Z :=
  match element_value e with
  | Some (String c v') => inl (String c v')
  | _ => inr 1%Z
  end.

(** [parseInt] applied to a string or to an integer Number, which it first
    turns into a string. *)
Definition parseInt_arg (v : string + Z) : number :=
  match v with
  | inl s => parseInt s
  | inr z => parseInt (int_to_string z)
  end.

Definition addToCart (pg : page) (productId : string) : M unit :=
  let quantity := value_or_one (getElementById pg ("quantity_" ++ productId)) in
  token <- lift (getCookie (document_cookie pg) "csrftoken") ;;
  fetch_json pg
    {| url := "/orders/add-to-cart/" ++ productId ++ "/";
       method := "POST";
       headers := [("Content-Type", JStr "application/json");
                   ("X-CSRFToken", token)];
       payload := Some (JsonBody [("quantity", JNum (parseInt_arg quantity))]) |}
    (fun data =>
       success <- lift (get_prop data "success") ;;
       if truthy success then
         showMessage (JStr "Product added to cart!") "success" ;;
         updateCartCount pg
       else
         message <- lift (get_prop data "message") ;;
         showMessage (or_else message (JStr "Error adding to cart")) "danger")
    (emit (ConsoleError "Error:") ;;
     showMessage (JStr "Error adding to cart") "danger").

(** The first of the digits Number::toString writes for a Number [z] from
    10^21 on (an integer, as every Number from 2^53 on is).  The digits
    written are the fewest that identify [z] among the Numbers; so the first
    one is the first digit of [z], unless the next digit followed by zeros
    only is as near to [z] as half the gap to the next Number above (a
    distance of exactly half counts when the mantissa of [z] is even): then
    that shorter text is written, and it begins with the next digit. *)
Definition first_digit (z : Z) : Z :=
  let ulp := (2 ^ (Z.log2 z - 52))%Z in
  let p := (10 ^ Z.of_nat (String.length (int_to_string z) - 1))%Z in
  let d := (z / p)%Z in
  let twice := (2 * ((d + 1) * p - z))%Z in
  if (twice <? ulp)%Z || ((twice =? ulp)%Z && Z.even (z / ulp))
  then (if (d =? 9)%Z then 1%Z else (d + 1)%Z)
  else d.

(** [parseInt] applied to a Number, which it first turns into a string.
    Number::toString writes not-a-number and the infinities by name, where
    [parseInt] finds no digit.  A finite Number from 1 up to 10^21 is written
    in plain decimal digits, of which [parseInt] reads those before the
    point; from 10^21 on one digit is written before the point or the
    exponent, and [parseInt] reads that one.  (A Number below 1 does not get
    here: the guard of [updateQuantity] has returned.) *)
Definition parseInt_number (n : number) : number :=
  match n with
  | NaN | Inf _ => NaN
  | Fin q =>
      if Qle_bool (Qpower 10 21) q then of_Z (first_digit (Qfloor q))
      else parseInt (int_to_string (Qfloor q))
  end.

Definition updateQuantity (pg : page) (itemId : string) (quantity : number)
  : M unit :=
  if lt_one quantity then ret tt
  else
    token <- lift (getCookie (document_cookie pg) "csrftoken") ;;
    fetch_json pg
      {| url := "/orders/update-cart/" ++ itemId ++ "/";
         method := "POST";
         headers := [("Content-Type", JStr "application/json");
                     ("X-CSRFToken", token)];
         payload :=
           Some (JsonBody [("quantity", JNum (parseInt_number quantity))]) |}
      (fun data =>
         success <- lift (get_prop data "success") ;;
         if truthy success then emit Reload else ret tt)
      (emit (ConsoleError "Error:")).

Definition removeFromCart (pg : page) (itemId : string) : M unit :=
  confirmed <- confirmAction pg "Remove this item from cart?" ;;
  if confirmed : bool then
    token <- lift (getCookie (document_cookie pg) "csrftoken") ;;
    fetch_json pg
      {| url := "/orders/remove-from-cart/" ++ itemId ++ "/";
         method := "POST";
         headers := [("X-CSRFToken", token)];
         payload := None |}
      (fun data =>
         success <- lift (get_prop data "success") ;;
         if truthy success then emit Reload else ret tt)
      (emit (ConsoleError "Error:"))
  else ret tt.

Definition applyCoupon (pg : page) : M unit :=
  match element_value (getElementById pg "coupon_code") with
  | Some (String c code') =>
      let code := String c code' in
      token <- lift (getCookie (document_cookie pg) "csrftoken") ;;
      fetch_json pg
        {| url := "/orders/apply-coupon/";
           method := "POST";
           headers := [("Content-Type", JStr "application/json");
                       ("X-CSRFToken", token)];
           payload := Some (JsonBody [("code", JStr code)]) |}
        (fun data =>
           success <- lift (get_prop data "success") ;;
           if truthy success then
             showMessage (JStr "Coupon applied!") "success" ;;
             emit (SetTimeout ReloadPage 1500)
           else
             message <- lift (get_prop data "message") ;;
             showMessage (or_else message (JStr "Invalid coupon")) "danger")
        (emit (ConsoleError "Error:") ;;
         showMessage (JStr "Error applying coupon") "danger")
  | _ => showMessage (JStr "Please enter coupon code") "warning"
  end.

(** ** Affiliate script *)

Definition requestWithdrawal (pg : page) : M unit :=
  match element_value (getElementById pg "withdrawalAmount") with
  | Some (String c amount') =>
      let amount := String c amount' in
      if le_zero (parseFloat amount)
      then showMessage (JStr "Please enter valid amount") "warning"
      else
        confirmed <-
          confirmAction pg ("Request withdrawal of â‚¹" ++ amount ++ "?") ;;
        if confirmed : bool then
          token <- lift (getCookie (document_cookie pg) "csrftoken") ;;
          fetch_json pg
            {| url := "/affiliate/request-withdrawal/";
               method := "POST";
               headers := [("Content-Type", JStr "application/json");
                           ("X-CSRFToken", token)];
               payload := Some (JsonBody [("amount", JNum (parseFloat amount))]) |}
            (fun data =>
               success <- lift (get_prop data "success") ;;
               if truthy success then
                 showMessage (JStr "Withdrawal request submitted!") "success" ;;
                 emit (SetTimeout ReloadPage 1500)
               else
                 message <- lift (get_prop data "message") ;;
                 showMessage
                   (or_else message (JStr "Error processing request")) "danger")
            (emit (ConsoleError "Error:") ;;
             showMessage (JStr "Error processing request") "danger")
        else ret tt
  | _ => showMessage (JStr "Please enter valid amount") "warning"
  end.

Definition updateBankDetails (pg : page) : M unit :=
  match getElementById pg "bankDetailsForm" with
  | None => ret tt
  | Some form =>
      let formData := FormData (form_entries form) in
      token <- lift (getCookie (document_cookie pg) "csrftoken") ;;
      fetch_json pg
        {| url := "/affiliate/update-bank-details/";
           method := "POST";
           headers := [("X-CSRFToken", token)];
           payload := Some formData |}
        (fun data =>
           success <- lift (get_prop data "success") ;;
           if truthy success then
             showMessage (JStr "Bank details updated!") "success"
           else
             message <- lift (get_prop data "message") ;;
             showMessage
               (or_else message (JStr "Error updating details")) "danger")
        (emit (ConsoleError "Error:") ;;
         showMessage (JStr "Error updating details") "danger")
  end.

(** ** The mutating operations of the request gateway *)

Inductive operation : Type :=
| AddToCart (productId : string)
| UpdateQuantity (itemId : string) (quantity : number)
| RemoveFromCart (itemId : string)
| ApplyCoupon
| RequestWithdrawal
| UpdateBankDetails.

Definition run (pg : page) (op : operation) : M unit :=
  match op with
  | AddToCart productId => addToCart pg productId
  | UpdateQuantity itemId quantity => updateQuantity pg itemId quantity
  | RemoveFromCart itemId => removeFromCart pg itemId
  | ApplyCoupon => applyCoupon pg
  | RequestWithdrawal => requestWithdrawal pg
  | UpdateBankDetails => updateBankDetails pg
  end.

(** The endpoint each operation posts to. *)
Definition endpoint (op : operation) : string :=
  match op with
  | AddToCart productId => "/orders/add-to-cart/" ++ productId ++ "/"
  | UpdateQuantity itemId _ => "/orders/update-cart/" ++ itemId ++ "/"
  | RemoveFromCart itemId => "/orders/remove-from-cart/" ++ itemId ++ "/"
  | ApplyCoupon => "/orders/apply-coupon/"
  | RequestWithdrawal => "/affiliate/request-withdrawal/"
  | UpdateBankDetails => "/affiliate/update-bank-details/"
  end.

(** The request a handler itself sends is the first one in its trace (only
    the badge refresh of [updateCartCount] can follow it). *)
Fixpoint first_fetch (t : list effect) : option request :=
  match t with
  | [] => None
  | Fetch req :: _ => Some req
  | _ :: rest => first_fetch rest
  end.

Definition is_reload (e : effect) : bool :=
  match e with
  | Reload | SetTimeout ReloadPage _ => true
  | _ => false
  end.

Definition reloads (t : list effect) : bool := existsb is_reload t.

(** A page to run the handlers on. *)
Definition input (v : string) : element :=
  {| value := Some v; form_entries := [] |}.

Definition demo_server (req : request) : response :=
  if String.eqb (method req) "GET"
  then Http true (Some (JObj [("count", JNum (of_Z 3))]))
  else if String.eqb (url req) "/orders/apply-coupon/"
  then Http true (Some (JObj [("success", JBool false);
                              ("message", JStr "Coupon expired")]))
  else if String.eqb (url req) "/orders/add-to-cart/7/"
  then Http true (Some (JObj [("success", JBool true)]))
  else Http true (Some (JObj [("success", JBool false)])).

Definition demo_page : page :=
  {| document_cookie := "a=1; csrftoken=XYZ; b=2";
     getElementById := fun id =>
       if String.eqb id "coupon_code" then Some (input "SAVE10")
       else if String.eqb id "withdrawalAmount" then Some (input "100.50")
       else if String.eqb id "bankDetailsForm"
       then Some {| value := None; form_entries := [("ifsc", "HDFC0001")] |}
       else if String.eqb id "categoryFilter" then Some (input "face care")
       else if String.eqb id "minPrice" then Some (input "")
       else if String.eqb id "maxPrice" then Some (input "500")
       else if String.eqb id "cartCount" then Some (input "")
       else None;
     confirm := fun _ => true;
     URLS := Some {| cartCount := Some "/orders/cart-count/";
                     wishlistCount := None |};
     server := demo_server |}.

(** ** Vocabulary of the properties *)

(** A POST whose [X-CSRFToken] header is what [getCookie('csrftoken')]
    returned. *)
Definition carries_csrf (pg : page) (req : request) : Prop :=
  method req = "POST" /\
  exists token,
    getCookie (document_cookie pg) "csrftoken" = Ok token /\
    assoc "X-CSRFToken" (headers req) = Some token.

(** The read-only badge refresh [updateCartCount] issues. *)
Definition badge_refresh (pg : page) (req : request) : Prop :=
  exists urls u,
    URLS pg = Some urls /\ cartCount urls = Some u /\ req = get_request u.

(** Every effect of [m] satisfies [P]. *)
Definition emits_only {A} (P : effect -> Prop) (m : M A) : Prop :=
  forall e, In e (effects m) -> P e.

(** [Q] holds of every request among the effects. *)
Definition requests (Q : request -> Prop) (e : effect) : Prop :=
  match e with
  | Fetch req => Q req
  | _ => True
  end.

Definition quiet (e : effect) : Prop := is_reload e = false.

(** The generic text a handler falls back on when the envelope carries no
    usable message; [None] for the two handlers that never show a toast. *)
Definition failure_fallback (op : operation) : option string :=
  match op with
  | AddToCart _ => Some "Error adding to cart"
  | ApplyCoupon => Some "Invalid coupon"
  | RequestWithdrawal => Some "Error processing request"
  | UpdateBankDetails => Some "Error updating details"
  | UpdateQuantity _ _ | RemoveFromCart _ => None
  end.

(** [op], run on [pg], got the answer [data] to the request it sent. *)
Definition answered (pg : page) (op : operation) (data : jsval) : Prop :=
  exists req ok,
    first_fetch (effects (run pg op)) = Some req /\
    server pg req = Http ok (Some data).

Definition shows_alert (className : string) (t : list effect) : Prop :=
  exists text, In (InsertAlert className text) t.

(** The failure rule read for one operation: whenever the envelope it gets
    says [success: false], it shows a danger toast. *)
Definition reports_failure (pg : page) (op : operation) : Prop :=
  forall data,
    answered pg op data ->
    get_prop data "success" = Ok (JBool false) ->
    shows_alert "alert alert-danger" (effects (run pg op)).

Definition coupon_expired : jsval :=
  JObj [("success", JBool false); ("message", JStr "Coupon expired")].

Definition demo_coupon_request : request :=
  {| url := "/orders/apply-coupon/";
     method := "POST";
     headers := [("Content-Type", JStr "application/json");
                 ("X-CSRFToken", JStr "XYZ")];
     payload := Some (JsonBody [("code", JStr "SAVE10")]) |}.

Definition demo_add_request : request :=
  {| url := "/orders/add-to-cart/7/";
     method := "POST";
     headers := [("Content-Type", JStr "application/json");
                 ("X-CSRFToken", JStr "XYZ")];
     payload := Some (JsonBody [("quantity", JNum (of_Z 1))]) |}.

(** [searchProducts(query)] navigates. *)
Definition navigates (query : string) : Prop :=
  exists href, In (SetHref href) (effects (searchProducts query)).

(** The search term 'rose' followed by the first half of a surrogate pair
    ('rose\uD83C'). *)
Definition cut_emoji : string := "rose" ++ bytes [237; 160; 188].

(** No string of [ws] is the beginning of another one. *)
Definition prefix_free (ws : list string) : bool :=
  forallb (fun a => forallb (fun b => implb (Str.prefixb a b) (String.eqb a b)) ws)
          ws.



(** No [=] occurs in [s]. *)
Fixpoint no_eq (s : string) : bool :=
  match s with
  | EmptyString => true
  | String c s' => negb (Ascii.eqb c "=") && no_eq s'
  end.

(** The names of the cookies in a cookie string: of each piece between
    semicolons, trimmed, what stands before the first [=]. *)
Definition cookie_names (document_cookie : string) : list string :=
  map (fun piece => fst (break_at "=" (trim piece)))
      (Str.split ";" document_cookie).


From Stdlib Require DecimalPos.

(** ** Outcomes of a request *)

(** The two effects of [showMessage]. *)
Definition toast (message : jsval) (type : string) : list effect :=
  [InsertAlert ("alert alert-" ++ type) message; SetTimeout RemoveAlert 5000].

(** What a handler asks the user before it sends. *)
Definition prelude (pg : page) (op : operation) : list effect :=
  match op with
  | RemoveFromCart _ => [Confirm "Remove this item from cart?"]
  | RequestWithdrawal =>
      match element_value (getElementById pg "withdrawalAmount") with
      | Some amount => [Confirm ("Request withdrawal of â‚¹" ++ amount ++ "?")]
      | None => []
      end
  | _ => []
  end.

(** The text of the toast in a handler's [catch]; [None] where the [catch]
    only logs. *)
Definition transport_text (op : operation) : option string :=
  match op with
  | AddToCart _ => Some "Error adding to cart"
  | ApplyCoupon => Some "Error applying coupon"
  | RequestWithdrawal => Some "Error processing request"
  | UpdateBankDetails => Some "Error updating details"
  | UpdateQuantity _ _ | RemoveFromCart _ => None
  end.

Definition on_transport (op : operation) : list effect :=
  ConsoleError "Error:"
    :: match transport_text op with
       | Some text => toast (JStr text) "danger"
       | None => []
       end.

Definition on_success (pg : page) (op : operation) : list effect :=
  match op with
  | AddToCart _ =>
      (toast (JStr "Product added to cart!") "success"
       ++ effects (updateCartCount pg))%list
  | UpdateQuantity _ _ | RemoveFromCart _ => [Reload]
  | ApplyCoupon =>
      (toast (JStr "Coupon applied!") "success"
       ++ [SetTimeout ReloadPage 1500])%list
  | RequestWithdrawal =>
      (toast (JStr "Withdrawal request submitted!") "success"
       ++ [SetTimeout ReloadPage 1500])%list
  | UpdateBankDetails => toast (JStr "Bank details updated!") "success"
  end.

Definition on_failure (op : operation) (message : jsval) : list effect :=
  match failure_fallback op with
  | Some fallback => toast (or_else message (JStr fallback)) "danger"
  | None => []
  end.

(** What follows the request, by what the response promise settles to. *)
Definition outcome (pg : page) (op : operation) (settled : option jsval)
  : list effect :=
  match settled with
  | None => on_transport op
  | Some data =>
      match get_prop data "success" with
      | Throw _ => on_transport op
      | Ok success =>
          if truthy success then on_success pg op
          else
            match get_prop data "message" with
            | Ok message => on_failure op message
            | Throw _ => on_transport op
            end
      end
  end.

Definition is_post (e : effect) : bool :=
  match e with
  | Fetch req => String.eqb (method req) "POST"
  | _ => false
  end.

Definition is_fetch (e : effect) : bool :=
  match e with
  | Fetch _ => true
  | _ => false
  end.

(** ** When a handler sends *)

(** The checks a handler makes before it reads the CSRF cookie. *)
Definition validated (pg : page) (op : operation) : Prop :=
  match op with
  | AddToCart _ => True
  | UpdateQuantity _ quantity => lt_one quantity = false
  | RemoveFromCart _ => confirm pg "Remove this item from cart?" = true
  | ApplyCoupon =>
      exists code,
        element_value (getElementById pg "coupon_code") = Some code /\
        code <> ""
  | RequestWithdrawal =>
      exists amount,
        element_value (getElementById pg "withdrawalAmount") = Some amount /\
        amount <> "" /\
        le_zero (parseFloat amount) = false /\
        confirm pg ("Request withdrawal of â‚¹" ++ amount ++ "?") = true
  | UpdateBankDetails => getElementById pg "bankDetailsForm" <> None
  end.

(** A page on which the CSRF cookie cannot be decoded. *)
Definition broken_cookie_page : page :=
  {| document_cookie := "a=1; csrftoken=%zz";
     getElementById := getElementById demo_page;
     confirm := fun _ => true;
     URLS := None;
     server := fun _ => NetworkError |}.

(** A page whose user answers no and whose network is down. *)
Definition offline_page (answer : bool) (amount : string) : page :=
  {| document_cookie := "csrftoken=XYZ";
     getElementById := fun id =>
       if String.eqb id "withdrawalAmount" then Some (input amount)
       else if String.eqb id "coupon_code" then Some (input "   ")
       else None;
     confirm := fun _ => answer;
     URLS := None;
     server := fun _ => NetworkError |}.

(** A page whose server gives every request the same JSON answer. *)
Definition answering_page (answer : jsval) : page :=
  {| document_cookie := "csrftoken=XYZ";
     getElementById := fun id =>
       if String.eqb id "bankDetailsForm"
       then Some {| value := None; form_entries := [("ifsc", "HDFC0001")] |}
       else if String.eqb id "coupon_code" then Some (input "SAVE10")
       else if String.eqb id "withdrawalAmount" then Some (input "abc")
       else None;
     confirm := fun _ => true;
     URLS := None;
     server := fun _ => Http true (Some answer) |}.

Definition update_request : request :=
  {| url := "/orders/update-cart/3/";
     method := "POST";
     headers := [("Content-Type", JStr "application/json");
                 ("X-CSRFToken", JStr "XYZ")];
     payload := Some (JsonBody [("quantity", JNum (of_Z 2))]) |}.

Definition bank_request : request :=
  {| url := "/affiliate/update-bank-details/";
     method := "POST";
     headers := [("X-CSRFToken", JStr "XYZ")];
     payload := Some (FormData [("ifsc", "HDFC0001")]) |}.

(** ** Badges *)

(** A page with both count endpoints, a cart badge and no wishlist badge. *)
Definition badge_page : page :=
  {| document_cookie := "";
     getElementById := fun id =>
       if String.eqb id "cartCount" then Some (input "") else None;
     confirm := fun _ => true;
     URLS := Some {| cartCount := Some "/orders/cart-count/";
                     wishlistCount := Some "/products/wishlist-count/" |};
     server := fun req =>
       if String.eqb (url req) "/orders/cart-count/"
       then Http true (Some (JObj [("count", JNum (of_Z 4))]))
       else Http false (Some (JObj [("count", JNum (of_Z 9))])) |}.

(** ** Grouped digits *)

(** One step of [digits_value] in base ten. *)
Definition digit_step (acc : Z) (c : ascii) : Z :=
  match digit_val 10 c with
  | Some d => (acc * 10 + Z.of_nat d)%Z
  | None => acc
  end.

Fixpoint all_digits (s : string) : bool :=
  match s with
  | EmptyString => true
  | String c s' => is_digit c && all_digits s'
  end.

(** The digits [s] with a comma before every digit from which the number of
    digits to the end is a multiple of three. *)
Fixpoint grouped_rest (s : string) : string :=
  match s with
  | EmptyString => EmptyString
  | String c s' =>
      (if (String.length s mod 3 =? 0)%nat then "," else "")
      ++ String c (grouped_rest s')
  end.

(** Thousands grouping: as above, and no comma in front. *)
Definition grouped (s : string) : string :=
  match s with
  | EmptyString => EmptyString
  | String c s' => String c (grouped_rest s')
  end.

(** ** Characters a string is free of *)

Fixpoint lacks (c : ascii) (s : string) : bool :=
  match s with
  | EmptyString => true
  | String x s' => negb (Ascii.eqb x c) && lacks c s'
  end.

(** A trimmed cookie begins with [name=]. *)
Definition names_cookie (name piece : string) : bool :=
  Str.prefixb (name ++ "=") (trim piece).

(** ** Search suggestions (search script) *)

(** [s.length]: the number of UTF-16 code units of the text whose UTF-8
    bytes are [s]; a code point takes two units when its encoding has four
    bytes, one otherwise. *)
Definition utf16_units (c : ascii) : nat :=
  if continuation c then 0
  else if (240 <=? nat_of_ascii c)%nat then 2
  else 1.

Fixpoint utf16_length (s : string) : nat :=
  match s with
  | EmptyString => 0
  | String c s' => utf16_units c + utf16_length s'
  end.

(** [v.length] of a parsed JSON value. *)
Definition js_length (v : jsval) : result jsval :=
  match v with
  | JUndefined | JNull => Throw TypeError
  | JArr items => Ok (JNum (of_Z (Z.of_nat (List.length items))))
  | JStr s => Ok (JNum (of_Z (Z.of_nat (utf16_length s))))
  | JObj fields =>
      match assoc "length" fields with
      | Some x => Ok x
      | None => Ok JUndefined
      end
  | _ => Ok JUndefined
  end.

(** [v === 0] *)
Definition is_zero (v : jsval) : bool :=
  match v with
  | JNum (Fin q) => Qeq_bool q 0
  | _ => false
  end.

Definition dquote : string := String "034" EmptyString.

(** The suggestions box [#searchSuggestions] as far as the script writes it. *)
Record box : Type := {
  display : string;       (* [style.display] *)
  innerHTML : string
}.

(** A [div] fresh from [document.createElement]. *)
Definition new_box : box := {| display := ""; innerHTML := "" |}.

Section Suggestions.

(** The conversion a template literal applies to an interpolated value; on a
    string it is the identity. *)
Variable to_string : jsval -> string.

(** One row of the list. *)
Definition suggestion_row (suggestion : jsval) : string :=
  "<div class=" ++ dquote ++ "suggestion-item" ++ dquote
  ++ " onclick=" ++ dquote ++ "selectSuggestion('" ++ to_string suggestion
  ++ "')" ++ dquote ++ ">" ++ to_string suggestion ++ "</div>".

(** [suggestions.map(...).join('')]: only an array has [map]. *)
Definition suggestion_rows (suggestions : jsval) : result string :=
  match suggestions with
  | JArr items => Ok (String.concat "" (map suggestion_row items))
  | _ => Throw TypeError
  end.

(** [showSuggestions(suggestions, inputElement)] as a step on the box
    ([None]: the page has no such element yet); the input element is in the
    page, so the box appended to its parent is found again by its id. *)
Definition showSuggestions (suggestions : jsval) (st : option box)
  : option box * result unit :=
  let suggestionsList :=
    match st with
    | Some container => container
    | None => new_box
    end in
  match js_length suggestions with
  | Throw e => (Some suggestionsList, Throw e)
  | Ok len =>
      if is_zero len then
        (Some {| display := "none"; innerHTML := innerHTML suggestionsList |},
         Ok tt)
      else
        match suggestion_rows suggestions with
        | Throw e => (Some suggestionsList, Throw e)
        | Ok html => (Some {| display := "block"; innerHTML := html |}, Ok tt)
        end
  end.

(** The [input] listener [initAutoComplete] puts on the search field, run
    with the field's text: its effects, the box afterwards and how the
    listener ends.  An exception of [encodeURIComponent] leaves the listener
    before [fetch] is called; what the continuations throw goes to the
    [catch] of the promise. *)
Definition autoComplete (pg : page) (query : string) (st : option box)
  : list effect * option box * result unit :=
  if (utf16_length query <? 2)%nat then ([], st, Ok tt)
  else
    match encodeURIComponent query with
    | Throw e => ([], st, Throw e)
    | Ok encoded =>
        let req :=
          get_request ("/products/search-suggestions/?q=" ++ encoded) in
        let '(log, st') :=
          match response_json (server pg req) with
          | None => ([ConsoleLog "Search error:"], st)
          | Some data =>
              match get_prop data "suggestions" with
              | Throw _ => ([ConsoleLog "Search error:"], st)
              | Ok suggestions =>
                  match showSuggestions suggestions st with
                  | (st', Ok _) => ([], st')
                  | (st', Throw _) => ([ConsoleLog "Search error:"], st')
                  end
              end
          end in
        (Fetch req :: log, st', Ok tt)
    end.

End Suggestions.

(** [selectSuggestion(term)] on the text of the search field ([None]: the
    page has no search field): the text the field is given, and what the
    search does. *)
Definition selectSuggestion (term : string) (field : option string)
  : option string * M unit :=
  match field with
  | None => (None, ([], Throw TypeError))
  | Some _ => (Some term, searchProducts term)
  end.

(** A conversion for sample runs; only its value on strings matters there. *)
Definition text_of (v : jsval) : string :=
  match v with
  | JStr s => s
  | JNull => "null"
  | JBool true => "true"
  | JBool false => "false"
  | _ => ""
  end.

Definition suggesting_page (answer : response) : page :=
  {| document_cookie := "";
     getElementById := fun _ => None;
     confirm := fun _ => true;
     URLS := None;
     server := fun _ => answer |}.

(** ** Filter wiring (filter script) *)

(** A listener that calls [applyFilters]: the element it sits on and the
    event it waits for. *)
Definition listener : Type := (string * string)%type.

Definition setPriceRange (pg : page) : list listener :=
  match getElementById pg "minPrice", getElementById pg "maxPrice" with
  | Some _, Some _ => [("minPrice", "change"); ("maxPrice", "change")]
  | _, _ => []
  end.

Definition setCategoryFilter (pg : page) : list listener :=
  match getElementById pg "categoryFilter" with
  | Some _ => [("categoryFilter", "change")]
  | None => []
  end.

Definition setSortFilter (pg : page) : list listener :=
  match getElementById pg "sortFilter" with
  | Some _ => [("sortFilter", "change")]
  | None => []
  end.

(** The [DOMContentLoaded] handler of the filter script. *)
Definition initFilters (pg : page) : list listener :=
  (setPriceRange pg ++ setCategoryFilter pg ++ setSortFilter pg)%list.

(** An event of type [event] on the element [id]: every listener on it for
    that event runs, in the order of registration. *)
Definition dispatch (listeners : list listener) (pg : page)
    (id event : string) : list effect :=
  flat_map
    (fun l : listener =>
       if String.eqb (fst l) id && String.eqb (snd l) event
       then effects (applyFilters pg) else [])
    listeners.

(** The controls [initFilters] listens to on a page. *)
Definition wired (pg : page) (id : string) : bool :=
  match getElementById pg id with
  | None => false
  | Some _ =>
      if String.eqb id "minPrice" then
        match getElementById pg "maxPrice" with Some _ => true | None => false end
      else if String.eqb id "maxPrice" then
        match getElementById pg "minPrice" with Some _ => true | None => false end
      else String.eqb id "categoryFilter" || String.eqb id "sortFilter"
  end.

(** A page with a minimum-price field and no maximum-price field. *)
Definition half_priced_page : page :=
  {| document_cookie := "";
     getElementById := fun id =>
       if String.eqb id "minPrice" then Some (input "100")
       else if String.eqb id "sortFilter" then Some (input "price")
       else None;
     confirm := fun _ => true;
     URLS := None;
     server := fun _ => NetworkError |}.

(** ** Copying to the clipboard (affiliate script) *)

(** A timer [copyBannerCode] has set: the milliseconds left until it fires
    and the label it will put back. *)
Record timer : Type := {
  due : nat;
  originalText : string
}.

(** The copy button of a banner, the clipboard, and the timers set and not yet
    fired, the oldest first. *)
Record banner : Type := {
  label : string;              (* [button.textContent] *)
  clipboard : string;
  pending : list timer
}.

(** [copyBannerCode(button)]: [code] is the text of the textarea next to the
    button ([None]: there is none), [copied] what [execCommand('copy')]
    achieves. *)
Definition copyBannerCode (code : option string) (copied : bool) (b : banner)
  : banner :=
  match code with
  | None => b
  | Some text =>
      {| label := "Copied!";
         clipboard := if copied then text else clipboard b;
         pending :=
           (pending b ++ [{| due := 2000; originalText := label b |}])%list |}
  end.

(** The oldest pending timer fires: [button.textContent = originalText]. *)
Definition expire (b : banner) : banner :=
  match pending b with
  | [] => b
  | t :: rest =>
      {| label := originalText t; clipboard := clipboard b; pending := rest |}
  end.

(** [ms] milliseconds go by on the timers [p] of a button labelled [l]: those
    due by then fire, the oldest first, and the others have that much less to
    wait. *)
Fixpoint run_timers (ms : nat) (p : list timer) (l : string)
  : string * list timer :=
  match p with
  | [] => (l, [])
  | t :: rest =>
      if (due t <=? ms)%nat then run_timers ms rest (originalText t)
      else
        let '(l', rest') := run_timers ms rest l in
        (l', {| due := due t - ms; originalText := originalText t |} :: rest')
  end.

Definition elapse (ms : nat) (b : banner) : banner :=
  let '(l, p) := run_timers ms (pending b) (label b) in
  {| label := l; clipboard := clipboard b; pending := p |}.

(** [copyReferralLink()]: [link] is the text of the field [affiliateLink]
    ([None]: the page has no such element); the result is the toast shown
    and the clipboard afterwards. *)
Definition copyReferralLink (link : option string) (copied : bool)
    (clipboard : string) : M unit * string :=
  match link with
  | None => (showMessage (JStr "Referral link not found") "danger", clipboard)
  | Some text =>
      (showMessage (JStr "Referral link copied to clipboard!") "success",
       if copied then text else clipboard)
  end.

(** ** Toasts *)

(** Every toast in the trace is followed at once by its removal timer of
    5000 ms. *)
Fixpoint toasts_expire (t : list effect) : bool :=
  match t with
  | [] => true
  | InsertAlert _ _ :: rest =>
      match rest with
      | SetTimeout RemoveAlert ms :: rest' =>
          (ms =? 5000)%nat && toasts_expire rest'
      | _ => false
      end
  | _ :: rest => toasts_expire rest
  end.

Definition is_alert (e : effect) : bool :=
  match e with
  | InsertAlert _ _ => true
  | _ => false
  end.

(** * Properties *)

(** ** The primitives on sample inputs *)

Example trim_sample :
  trim (bytes [32; 9] ++ "ab c" ++ bytes [226; 128; 168; 10]) = "ab c".
Proof. vm_compute. reflexivity. Qed.

Example split_sample :
  Str.split ";" "a=1; csrftoken=XYZ; b=2" = ["a=1"; " csrftoken=XYZ"; " b=2"].
Proof. vm_compute. reflexivity. Qed.

Example encodeURIComponent_sample :
  encodeURIComponent "a b&c=d/~" = Ok "a%20b%26c%3Dd%2F~".
Proof. vm_compute. reflexivity. Qed.

Example encodeURIComponent_unpaired :
  encodeURIComponent cut_emoji = Throw URIError /\
  encodeURIComponent ("rose" ++ bytes [240; 159; 140; 185]) = Ok "rose%F0%9F%8C%B9".
Proof. split; vm_compute; reflexivity. Qed.

Example decodeURIComponent_sample :
  decodeURIComponent "a%20b%e2%82%b9" = Ok "a b₹" /\
  decodeURIComponent "100%" = Throw URIError /\
  decodeURIComponent "%C0%80" = Throw URIError.
Proof. vm_compute. auto. Qed.

Example parseInt_sample :
  parseInt "  42px" = of_Z 42 /\ parseInt "-0x1F" = of_Z (-31) /\
  parseInt "" = NaN /\ parseInt "px" = NaN /\
  parseInt_arg (inr 1%Z) = of_Z 1.
Proof. vm_compute. auto. Qed.

Example parseInt_number_sample :
  parseInt_number (Fin (5 # 2)) = of_Z 2 /\
  parseInt_number (Fin (inject_Z (10 ^ 21))) = of_Z 1 /\
  parseInt_number (Fin (inject_Z (2 ^ 70))) = of_Z 1 /\
  parseInt_number (Fin (inject_Z 99999999999999991611392)) = of_Z 1 /\
  parseInt_number (Fin (inject_Z (3 * 10 ^ 21))) = of_Z 3 /\
  parseInt_number (Inf false) = NaN.
Proof. repeat split; vm_compute; reflexivity. Qed.

Example parseFloat_sample :
  parseFloat "100.50" = Fin (201 # 2) /\ parseFloat "-.5e1x" = Fin (-5 # 1) /\
  parseFloat "abc" = NaN /\ parseFloat "1e-400" = Fin 0 /\
  parseFloat "1e400" = Inf false.
Proof. vm_compute. auto. Qed.

Example formatCurrency_sample :
  formatCurrency (Fin 0) = Some "₹0.00" /\
  formatCurrency (Fin (999 # 1)) = Some "₹999.00" /\
  formatCurrency (Fin (-24691 # 2)) = Some "₹-12,345.50" /\
  formatCurrency (Fin (1 # 8)) = Some "₹0.13" /\
  formatCurrency NaN = Some "₹NaN".
Proof. vm_compute. auto. Qed.

(** ** Facts about strings *)

Module StrFacts.

Lemma append_nil_r (s : string) : s ++ "" = s.
Proof. induction s as [| c s IH]; simpl; [reflexivity | now rewrite IH]. Qed.

Lemma append_assoc (a b c : string) : (a ++ b) ++ c = a ++ b ++ c.
Proof. induction a as [| x a IH]; simpl; [reflexivity | now rewrite IH]. Qed.

Lemma length_append (a b : string) :
  String.length (a ++ b) = (String.length a + String.length b)%nat.
Proof. induction a as [| x a IH]; simpl; [reflexivity | now rewrite IH]. Qed.

Lemma prefixb_app (p s : string) :
  Str.prefixb p s = true -> s = p ++ Str.drop (String.length p) s.
Proof.
  revert s. induction p as [| a p IH]; intros s H; [reflexivity |].
  destruct s as [| b s]; [discriminate H |]. simpl in H |- *.
  apply andb_prop in H as [Hab Hp].
  apply Ascii.eqb_eq in Hab as ->. now rewrite <- (IH s Hp).
Qed.

Lemma prefixb_intro (p rest : string) : Str.prefixb p (p ++ rest) = true.
Proof.
  induction p as [| a p IH]; simpl; [reflexivity |].
  now rewrite Ascii.eqb_refl, IH.
Qed.

Lemma drop_app (p rest : string) : Str.drop (String.length p) (p ++ rest) = rest.
Proof. induction p as [| a p IH]; simpl; [reflexivity | exact IH]. Qed.

Lemma take_drop (n : nat) (s : string) :
  s = String.substring 0 n s ++ Str.drop n s.
Proof.
  revert s. induction n as [| n IH]; intros [| c s]; simpl; try reflexivity.
  now rewrite <- IH.
Qed.

Lemma rev_onto_app (s acc : string) :
  Str.rev_onto s acc = Str.rev s ++ acc.
Proof.
  unfold Str.rev. revert acc.
  induction s as [| c s IH]; intro acc; simpl; [reflexivity |].
  rewrite (IH (String c EmptyString)), (IH (String c acc)), append_assoc.
  reflexivity.
Qed.

Lemma rev_cons (c : ascii) (s : string) :
  Str.rev (String c s) = Str.rev s ++ String c "".
Proof. unfold Str.rev at 1. simpl. apply rev_onto_app. Qed.

Lemma rev_app (a b : string) : Str.rev (a ++ b) = Str.rev b ++ Str.rev a.
Proof.
  induction a as [| c a IH]; simpl.
  - now rewrite append_nil_r.
  - now rewrite !rev_cons, IH, append_assoc.
Qed.

Lemma rev_involutive (s : string) : Str.rev (Str.rev s) = s.
Proof.
  induction s as [| c s IH]; [reflexivity |].
  now rewrite rev_cons, rev_app, IH.
Qed.

(** Occurrence is reflexive and transitive, and holds of prefixes. *)
Lemma occurs_refl (s : string) : Str.occurs s s.
Proof. exists "", "". now rewrite append_nil_r. Qed.

Lemma occurs_trans (a b c : string) :
  Str.occurs a b -> Str.occurs b c -> Str.occurs a c.
Proof.
  intros (x & y & ->) (u & v & ->).
  exists (u ++ x), (y ++ v). now rewrite !append_assoc.
Qed.

Lemma occurs_app_l (a b : string) : Str.occurs a (a ++ b).
Proof. exists "", b. reflexivity. Qed.

Lemma occurs_app_r (a b : string) : Str.occurs b (a ++ b).
Proof. exists a, "". now rewrite append_nil_r. Qed.

Lemma occurs_cons (name : string) (c : ascii) (s : string) :
  Str.occurs name s -> Str.occurs name (String c s).
Proof. intros (x & y & ->). exists (String c x), y. reflexivity. Qed.

Lemma occursb_sound (name s : string) :
  Str.occursb name s = true -> Str.occurs name s.
Proof.
  induction s as [| c s IH]; simpl; intro H.
  - apply orb_prop in H as [H | H]; [| discriminate H].
    rewrite (prefixb_app _ _ H). apply occurs_app_l.
  - apply orb_prop in H as [H | H].
    + rewrite (prefixb_app _ _ H). apply occurs_app_l.
    + apply occurs_cons, IH, H.
Qed.

Lemma occursb_prefix (name s : string) :
  Str.prefixb name s = true -> Str.occursb name s = true.
Proof. intro H. destruct s; simpl; rewrite H; reflexivity. Qed.

Lemma occursb_complete (name s : string) :
  Str.occurs name s -> Str.occursb name s = true.
Proof.
  intros (x & y & ->). induction x as [| c x IH].
  - change (Str.occursb name (name ++ y) = true).
    apply occursb_prefix, prefixb_intro.
  - simpl. rewrite IH. apply orb_true_r.
Qed.

(** The first piece of a split is a prefix of the string that was split. *)
Lemma split_head (sep : ascii) (s p : string) (ps : list string) :
  Str.split sep s = p :: ps -> exists rest, s = p ++ rest.
Proof.
  revert p ps. induction s as [| c s IH]; simpl; intros p ps E.
  - injection E as <- <-. exists "". reflexivity.
  - destruct (Ascii.eqb c sep).
    + injection E as <- <-. exists (String c s). reflexivity.
    + destruct (Str.split sep s) as [| q qs] eqn:Es.
      * injection E as <- <-. exists s. reflexivity.
      * injection E as <- <-.
        destruct (IH q qs eq_refl) as [rest ->].
        exists rest. reflexivity.
Qed.

(** Every piece of a split is part of the string that was split. *)
Lemma split_occurs (sep : ascii) (s piece : string) :
  In piece (Str.split sep s) -> Str.occurs piece s.
Proof.
  revert piece. induction s as [| c s IH]; simpl; intros piece H.
  - destruct H as [<- | []]. apply occurs_refl.
  - destruct (Ascii.eqb c sep).
    + destruct H as [<- | H]; [exists "", (String c s); reflexivity |].
      apply occurs_cons, IH, H.
    + destruct (Str.split sep s) as [| p ps] eqn:E.
      * destruct H as [<- | []]. exists "", s. reflexivity.
      * destruct H as [<- | H].
        -- destruct (split_head sep s p ps E) as [rest ->].
           exists "", rest. reflexivity.
        -- apply occurs_cons, IH. right. exact H.
Qed.

End StrFacts.

(** ** Facts about trimming *)

Module TrimFacts.

Import StrFacts.

Lemma strip_first_sound (ws : list string) (s rest : string) :
  strip_first ws s = Some rest -> exists w, In w ws /\ s = w ++ rest.
Proof.
  induction ws as [| w ws IH]; simpl; [discriminate |].
  destruct (Str.prefixb w s) eqn:Hp.
  - intros [= <-]. exists w. split; [now left | apply prefixb_app, Hp].
  - intro H. destruct (IH H) as (w' & Hin & Hs). exists w'. auto.
Qed.

Lemma strip_first_none (ws : list string) (s w : string) :
  strip_first ws s = None -> In w ws -> Str.prefixb w s = false.
Proof.
  induction ws as [| w' ws IH]; simpl; [intros _ [] |].
  destruct (Str.prefixb w' s) eqn:Hp; [discriminate |].
  intros H [<- | Hin]; [exact Hp | exact (IH H Hin)].
Qed.

Lemma blank_token (w : string) : In w js_whitespace -> blank w.
Proof.
  intro H. rewrite <- (append_nil_r w). apply blank_more; [exact H | constructor].
Qed.

Lemma blank_app (a b : string) : blank a -> blank b -> blank (a ++ b).
Proof.
  intros Ha Hb. induction Ha as [| w s Hw Hs IH]; [exact Hb |].
  rewrite append_assoc. apply blank_more; assumption.
Qed.

(** What [trimStart] removes is white space. *)
Lemma trim_fuel_front (fuel : nat) (s : string) :
  exists a, blank a /\ s = a ++ trim_fuel strip_ws fuel s.
Proof.
  revert s. induction fuel as [| fuel IH]; intro s; simpl.
  - exists "". split; [constructor | reflexivity].
  - destruct (strip_ws s) as [rest |] eqn:E.
    + apply strip_first_sound in E as (w & Hw & ->).
      destruct (IH rest) as (a & Ha & Hrest).
      exists (w ++ a). split; [now apply blank_more |].
      rewrite append_assoc. now rewrite <- Hrest.
    + exists "". split; [constructor | reflexivity].
Qed.

(** What [trimEnd] removes, read backwards, is white space. *)
Lemma trim_fuel_back (fuel : nat) (r : string) :
  exists a, blank (Str.rev a) /\ r = a ++ trim_fuel strip_ws_rev fuel r.
Proof.
  revert r. induction fuel as [| fuel IH]; intro r; simpl.
  - exists "". split; [constructor | reflexivity].
  - destruct (strip_ws_rev r) as [rest |] eqn:E.
    + apply strip_first_sound in E as (w & Hw & ->).
      apply in_map_iff in Hw as (w0 & <- & Hw0).
      destruct (IH rest) as (a & Ha & Hrest).
      exists (Str.rev w0 ++ a). split.
      * rewrite rev_app, rev_involutive.
        apply blank_app; [exact Ha | apply blank_token, Hw0].
      * rewrite append_assoc. now rewrite <- Hrest.
    + exists "". split; [constructor | reflexivity].
Qed.

Lemma trimStart_split (s : string) :
  exists a, blank a /\ s = a ++ trimStart s.
Proof. apply trim_fuel_front. Qed.

Lemma trimEnd_split (s : string) :
  exists b, blank b /\ s = trimEnd s ++ b.
Proof.
  unfold trimEnd.
  destruct (trim_fuel_back (String.length s) (Str.rev s)) as (a & Ha & Hs).
  exists (Str.rev a). split; [exact Ha |].
  rewrite <- rev_app, <- Hs. symmetry. apply rev_involutive.
Qed.

(** A trimmed string is a part of the original, between two runs of white
    space. *)
Lemma trim_split (s : string) :
  exists a b, blank a /\ blank b /\ s = a ++ trim s ++ b.
Proof.
  destruct (trimStart_split s) as (a & Ha & Hs).
  destruct (trimEnd_split (trimStart s)) as (b & Hb & Ht).
  exists a, b. repeat split; try assumption.
  unfold trim. now rewrite <- Ht.
Qed.

Lemma trim_occurs (s : string) : Str.occurs (trim s) s.
Proof. destruct (trim_split s) as (a & b & _ & _ & H). exists a, b. exact H. Qed.

Lemma trim_empty_blank (s : string) : trim s = "" -> blank s.
Proof.
  intro H. destruct (trim_split s) as (a & b & Ha & Hb & Hs).
  rewrite H in Hs. rewrite Hs. apply blank_app; assumption.
Qed.

(** No white-space code point is the beginning of another one, so a blank
    string is cut into code points in one way only. *)
Lemma whitespace_prefix_free (a b : string) :
  In a js_whitespace -> In b js_whitespace -> Str.prefixb a b = true -> a = b.
Proof.
  intros Ha Hb Hp.
  assert (H : prefix_free js_whitespace = true) by (vm_compute; reflexivity).
  unfold prefix_free in H. rewrite forallb_forall in H.
  specialize (H a Ha). rewrite forallb_forall in H. specialize (H b Hb).
  rewrite Hp in H. apply String.eqb_eq, H.
Qed.

Lemma whitespace_nonempty (w : string) : In w js_whitespace -> nonempty w = true.
Proof.
  intro H.
  assert (Hall : forallb nonempty js_whitespace = true) by (vm_compute; reflexivity).
  rewrite forallb_forall in Hall. exact (Hall w H).
Qed.

Lemma prefixb_comparable (a b s : string) :
  Str.prefixb a s = true -> Str.prefixb b s = true ->
  Str.prefixb a b = true \/ Str.prefixb b a = true.
Proof.
  revert b s. induction a as [| x a IH]; intros b s Ha Hb; [now left |].
  destruct b as [| y b]; [now right |].
  destruct s as [| z s]; [discriminate Ha |]. simpl in *.
  apply andb_prop in Ha as [Hx Ha]. apply andb_prop in Hb as [Hy Hb].
  apply Ascii.eqb_eq in Hx as ->. apply Ascii.eqb_eq in Hy as ->.
  rewrite Ascii.eqb_refl. simpl. exact (IH b s Ha Hb).
Qed.

Lemma strip_ws_token (w rest : string) :
  In w js_whitespace -> strip_ws (w ++ rest) = Some rest.
Proof.
  intro Hw. destruct (strip_ws (w ++ rest)) as [r |] eqn:E.
  - apply strip_first_sound in E as (w' & Hw' & Hs).
    assert (Heq : w' = w).
    { destruct (prefixb_comparable w' w (w ++ rest)) as [H | H].
      - rewrite Hs. apply prefixb_intro.
      - apply prefixb_intro.
      - exact (whitespace_prefix_free _ _ Hw' Hw H).
      - symmetry. exact (whitespace_prefix_free _ _ Hw Hw' H). }
    subst w'. f_equal.
    apply (f_equal (Str.drop (String.length w))) in Hs.
    now rewrite !drop_app in Hs.
  - pose proof (strip_first_none _ _ w E Hw) as H.
    now rewrite prefixb_intro in H.
Qed.

Lemma blank_trim_fuel (fuel : nat) (s : string) :
  blank s -> (String.length s <= fuel)%nat -> trim_fuel strip_ws fuel s = "".
Proof.
  revert s. induction fuel as [| fuel IH]; intros s Hb Hlen.
  - destruct s; [reflexivity | simpl in Hlen; lia].
  - destruct Hb as [| w s Hw Hs]; [reflexivity |].
    simpl. rewrite (strip_ws_token w s Hw). apply IH; [exact Hs |].
    rewrite length_append in Hlen.
    pose proof (whitespace_nonempty w Hw) as Hne.
    destruct w; [discriminate Hne | simpl in Hlen; lia].
Qed.

Lemma blank_trim_empty (s : string) : blank s -> trim s = "".
Proof.
  intro Hb. unfold trim, trimStart.
  rewrite (blank_trim_fuel _ s Hb (le_n _)). reflexivity.
Qed.

(** [s.trim() === ''] exactly when [s] is made of white space only. *)
Lemma trim_empty_iff (s : string) : trim s = "" <-> blank s.
Proof. split; [apply trim_empty_blank | apply blank_trim_empty]. Qed.

End TrimFacts.

(** ** Query strings *)

Module QueryFacts.

Import StrFacts.





Lemma percent_decode_byte (c : ascii) (t : string) :
  percent_decode ((if uri_unreserved c then String c "" else percent c) ++ t)
  = String c (percent_decode t).
Proof. destruct c as [[] [] [] [] [] [] [] []]; reflexivity. Qed.

(** The text can be read back from its escaped form. *)
Lemma percent_decode_uri_escape (s : string) :
  percent_decode (uri_escape s) = s.
Proof.
  induction s as [| c s IH]; simpl; [reflexivity |].
  now rewrite percent_decode_byte, IH.
Qed.












End QueryFacts.

(** ** Traces of composed handlers *)

Lemma bind_lift_ok {A B} (a : A) (k : A -> M B) : bind (lift (Ok a)) k = k a.
Proof. unfold bind, lift. destruct (k a). reflexivity. Qed.

Lemma bind_lift_throw {A B} (e : exn) (k : A -> M B) :
  bind (lift (Throw e)) k = ([], Throw e).
Proof. reflexivity. Qed.

Lemma effects_bind {A B} (m : M A) (k : A -> M B) :
  effects (bind m k) =
  (effects m ++ match snd m with
                | Ok a => effects (k a)
                | Throw _ => []
                end)%list.
Proof.
  unfold effects, bind. destruct m as [t [a | e]]; simpl.
  - destruct (k a). reflexivity.
  - symmetry. apply app_nil_r.
Qed.

Lemma effects_emit_bind {B} (e : effect) (k : unit -> M B) :
  effects (bind (emit e) k) = e :: effects (k tt).
Proof. rewrite effects_bind. reflexivity. Qed.

Lemma effects_showMessage_bind {B} (message : jsval) (type : string)
    (k : unit -> M B) :
  effects (bind (showMessage message type) k) =
  InsertAlert ("alert alert-" ++ type) message
    :: SetTimeout RemoveAlert 5000 :: effects (k tt).
Proof. rewrite effects_bind. reflexivity. Qed.

Lemma effects_fetch_json (pg : page) (req : request)
    (on_data : jsval -> M unit) (on_error : M unit) :
  effects (fetch_json pg req on_data on_error) =
  Fetch req :: effects (then_catch (response_json (server pg req)) on_data on_error).
Proof. unfold fetch_json. apply effects_emit_bind. Qed.

Lemma effects_then_catch_data (data : jsval)
    (on_data : jsval -> M unit) (on_error : M unit) :
  effects (then_catch (Some data) on_data on_error) =
  (effects (on_data data) ++ match snd (on_data data) with
                             | Ok _ => []
                             | Throw _ => effects on_error
                             end)%list.
Proof.
  unfold then_catch, detached, catch, effects.
  destruct (on_data data) as [t [u | e]]; simpl.
  - symmetry. apply app_nil_r.
  - destruct on_error. reflexivity.
Qed.

(** ** Invariants of traces *)

Section EmitsOnly.

Variable P : effect -> Prop.

Lemma emits_only_silent {A} (r : result A) : emits_only P ([], r).
Proof. intros e []. Qed.

Lemma emits_only_ret {A} (a : A) : emits_only P (ret a).
Proof. apply emits_only_silent. Qed.

Lemma emits_only_lift {A} (r : result A) : emits_only P (lift r).
Proof. apply emits_only_silent. Qed.

Lemma emits_only_emit (e : effect) : P e -> emits_only P (emit e).
Proof. intros H e' [<- | []]. exact H. Qed.

Lemma emits_only_bind {A B} (m : M A) (k : A -> M B) :
  emits_only P m -> (forall a, emits_only P (k a)) -> emits_only P (bind m k).
Proof.
  intros Hm Hk e. rewrite effects_bind. intro H.
  apply in_app_or in H as [H | H]; [apply Hm, H |].
  destruct (snd m); [apply (Hk a), H | destruct H].
Qed.

Lemma emits_only_catch (m handler : M unit) :
  emits_only P m -> emits_only P handler -> emits_only P (catch m handler).
Proof.
  intros Hm Hh e. unfold catch, effects.
  destruct m as [t [u | x]]; [apply Hm |].
  destruct handler as [t' r]. simpl. intro H.
  apply in_app_or in H as [H | H]; [apply Hm, H | apply Hh, H].
Qed.

Lemma emits_only_then_catch (settled : option jsval)
    (on_data : jsval -> M unit) (on_error : M unit) :
  (forall data, emits_only P (on_data data)) -> emits_only P on_error ->
  emits_only P (then_catch settled on_data on_error).
Proof.
  intros Hd He. unfold then_catch, detached, emits_only, effects. simpl.
  destruct settled as [data |]; [| apply He].
  apply emits_only_catch; [apply Hd | apply He].
Qed.

Lemma emits_only_showMessage (message : jsval) (type : string) :
  P (InsertAlert ("alert alert-" ++ type) message) ->
  P (SetTimeout RemoveAlert 5000) ->
  emits_only P (showMessage message type).
Proof. intros H1 H2 e [<- | [<- | []]]; assumption. Qed.

Lemma emits_only_fetch_json (pg : page) (req : request)
    (on_data : jsval -> M unit) (on_error : M unit) :
  P (Fetch req) ->
  (forall data, emits_only P (on_data data)) -> emits_only P on_error ->
  emits_only P (fetch_json pg req on_data on_error).
Proof.
  intros Hq Hd He. unfold fetch_json.
  apply emits_only_bind.
  - apply emits_only_emit. exact Hq.
  - intros _. apply emits_only_then_catch; assumption.
Qed.

Lemma emits_only_if {A} (b : bool) (m1 m2 : M A) :
  emits_only P m1 -> emits_only P m2 -> emits_only P (if b then m1 else m2).
Proof. destruct b; auto. Qed.

End EmitsOnly.

Lemma emits_only_weaken {A} (P P' : effect -> Prop) (m : M A) :
  (forall e, P e -> P' e) -> emits_only P m -> emits_only P' m.
Proof. intros H Hm e Hin. apply H, Hm, Hin. Qed.

Create HintDb trace discriminated.
#[local] Hint Resolve emits_only_silent emits_only_ret emits_only_lift
  emits_only_bind emits_only_catch emits_only_then_catch emits_only_if : trace.
#[local] Hint Extern 2 (emits_only _ (emit _)) =>
  apply emits_only_emit; first [exact I | reflexivity] : trace.
#[local] Hint Extern 2 (emits_only _ (showMessage _ _)) =>
  apply emits_only_showMessage; first [exact I | reflexivity] : trace.

Lemma updateCartCount_requests (pg : page) :
  emits_only (requests (badge_refresh pg)) (updateCartCount pg).
Proof.
  unfold updateCartCount.
  destruct (URLS pg) as [urls |] eqn:Hu; [| auto with trace].
  destruct (cartCount urls) as [[| c u'] |] eqn:Hc; try solve [auto with trace].
  apply emits_only_bind.
  - apply emits_only_emit. exists urls, (String c u'). auto.
  - intros _. apply emits_only_then_catch; [| auto with trace].
    intros data. destruct (getElementById pg "cartCount"); auto with trace.
Qed.

Lemma updateCartCount_quiet (pg : page) : emits_only quiet (updateCartCount pg).
Proof.
  unfold updateCartCount.
  destruct (URLS pg) as [urls |]; [| auto with trace].
  destruct (cartCount urls) as [[| c u'] |]; try solve [auto with trace].
  apply emits_only_bind; [auto with trace |].
  intros _. apply emits_only_then_catch; [| auto with trace].
  intros data. destruct (getElementById pg "cartCount"); auto with trace.
Qed.

Lemma emits_only_quiet_reloads {A} (m : M A) :
  emits_only quiet m -> reloads (effects m) = false.
Proof.
  unfold emits_only, reloads. induction (effects m) as [| e t IH]; intro H.
  - reflexivity.
  - simpl. rewrite (H e (or_introl eq_refl)). apply IH.
    intros e' He'. apply H. right. exact He'.
Qed.

(** C1. Every request a mutating operation issues is either its own POST,
    sent to the operation's endpoint with an [X-CSRFToken] header holding the
    result of [getCookie('csrftoken')], or the read-only badge refresh that
    follows a successful add-to-cart. *)
Theorem mutating_requests_carry_csrf (pg : page) (op : operation) (req : request) :
  In (Fetch req) (effects (run pg op)) ->
  (url req = endpoint op /\ carries_csrf pg req) \/ badge_refresh pg req.
Proof.
  set (Q := fun r => (url r = endpoint op /\ carries_csrf pg r)
                     \/ badge_refresh pg r).
  intro Hin. change (requests Q (Fetch req)). revert Hin. generalize (Fetch req).
  change (emits_only (requests Q) (run pg op)).
  assert (Hpost : forall token u hs b,
             getCookie (document_cookie pg) "csrftoken" = Ok token ->
             u = endpoint op ->
             assoc "X-CSRFToken" hs = Some token ->
             requests Q
               (Fetch {| url := u; method := "POST"; headers := hs;
                         payload := b |})).
  { intros token u hs b Hc -> Hh. left. split; [reflexivity |].
    split; [reflexivity | exists token; auto]. }
  destruct op; cbv beta iota delta [run].
  - (* addToCart *)
    unfold addToCart.
    destruct (getCookie (document_cookie pg) "csrftoken") as [token | e] eqn:Hc;
      [rewrite bind_lift_ok | rewrite bind_lift_throw; intros ? []].
    apply emits_only_fetch_json; [eapply Hpost; eauto | | auto with trace].
    intros data. apply emits_only_bind; [auto with trace |].
    intros success. apply emits_only_if; [| auto with trace].
    apply emits_only_bind; [auto with trace |]. intros _.
    eapply emits_only_weaken; [| apply updateCartCount_requests].
    intros [] H; try exact I. right. exact H.
  - (* updateQuantity *)
    unfold updateQuantity. apply emits_only_if; [auto with trace |].
    destruct (getCookie (document_cookie pg) "csrftoken") as [token | e] eqn:Hc;
      [rewrite bind_lift_ok | rewrite bind_lift_throw; intros ? []].
    apply emits_only_fetch_json; [eapply Hpost; eauto | | auto with trace].
    intros data. auto with trace.
  - (* removeFromCart *)
    unfold removeFromCart, confirmAction.
    apply emits_only_bind; [auto with trace |].
    intros confirmed. apply emits_only_if; [| auto with trace].
    destruct (getCookie (document_cookie pg) "csrftoken") as [token | e] eqn:Hc;
      [rewrite bind_lift_ok | rewrite bind_lift_throw; intros ? []].
    apply emits_only_fetch_json; [eapply Hpost; eauto | | auto with trace].
    intros data. auto with trace.
  - (* applyCoupon *)
    unfold applyCoupon.
    destruct (element_value _) as [[| c code'] |]; try solve [auto with trace].
    destruct (getCookie (document_cookie pg) "csrftoken") as [token | e] eqn:Hc;
      [rewrite bind_lift_ok | rewrite bind_lift_throw; intros ? []].
    apply emits_only_fetch_json; [eapply Hpost; eauto | | auto with trace].
    intros data. auto 7 with trace.
  - (* requestWithdrawal *)
    unfold requestWithdrawal, confirmAction.
    destruct (element_value _) as [[| c amount'] |]; try solve [auto with trace].
    apply emits_only_if; [auto with trace |].
    apply emits_only_bind; [auto with trace |].
    intros confirmed. apply emits_only_if; [| auto with trace].
    destruct (getCookie (document_cookie pg) "csrftoken") as [token | e] eqn:Hc;
      [rewrite bind_lift_ok | rewrite bind_lift_throw; intros ? []].
    apply emits_only_fetch_json; [eapply Hpost; eauto | | auto with trace].
    intros data. auto 7 with trace.
  - (* updateBankDetails *)
    unfold updateBankDetails.
    destruct (getElementById pg "bankDetailsForm") as [form |];
      [| auto with trace].
    destruct (getCookie (document_cookie pg) "csrftoken") as [token | e] eqn:Hc;
      [rewrite bind_lift_ok | rewrite bind_lift_throw; intros ? []].
    apply emits_only_fetch_json; [eapply Hpost; eauto | | auto with trace].
    intros data. auto 7 with trace.
Qed.

Lemma mutating_requests_carry_csrf_witness :
  let req := {| url := "/orders/remove-from-cart/3/"; method := "POST";
                headers := [("X-CSRFToken", JStr "XYZ")]; payload := None |} in
  In (Fetch req) (effects (run demo_page (RemoveFromCart "3"))) /\
  ((url req = endpoint (RemoveFromCart "3") /\ carries_csrf demo_page req)
   \/ badge_refresh demo_page req).
Proof.
  intro req.
  assert (Hin : In (Fetch req) (effects (run demo_page (RemoveFromCart "3")))).
  { vm_compute. right. left. reflexivity. }
  split; [exact Hin | exact (mutating_requests_carry_csrf _ _ _ Hin)].
Defined.

(** ** The request a handler sends and what follows it *)

Lemma first_fetch_fetch_json (pg : page) (req : request)
    (on_data : jsval -> M unit) (on_error : M unit) :
  first_fetch (effects (fetch_json pg req on_data on_error)) = Some req.
Proof. rewrite effects_fetch_json. reflexivity. Qed.

Lemma effects_confirm_bind {B} (pg : page) (message : string) (k : bool -> M B) :
  effects (bind (confirmAction pg message) k) =
  Confirm message :: effects (k (confirm pg message)).
Proof. rewrite effects_bind. reflexivity. Qed.

Lemma first_fetch_skip (e : effect) (t : list effect) :
  (forall req, e <> Fetch req) -> first_fetch (e :: t) = first_fetch t.
Proof. intro H. destruct e; try reflexivity. destruct (H req eq_refl). Qed.

(** The failure branch shared by the handlers that report to the user. *)
Lemma effects_failure_branch (data success message : jsval) (fallback : string)
    (on_success on_error : M unit) :
  get_prop data "success" = Ok success ->
  truthy success = false ->
  get_prop data "message" = Ok message ->
  effects
    (then_catch (Some data)
       (fun data =>
          success <- lift (get_prop data "success") ;;
          if truthy success then on_success
          else
            message <- lift (get_prop data "message") ;;
            showMessage (or_else message (JStr fallback)) "danger")
       on_error) =
  [InsertAlert "alert alert-danger" (or_else message (JStr fallback));
   SetTimeout RemoveAlert 5000].
Proof.
  intros Hs Hf Hm. rewrite effects_then_catch_data.
  rewrite Hs, bind_lift_ok, Hf, Hm, bind_lift_ok. reflexivity.
Qed.

Lemma effects_success_branch (data success : jsval)
    (on_success : M unit) (on_failure : jsval -> M unit) (on_error : M unit) :
  get_prop data "success" = Ok success ->
  truthy success = true ->
  snd on_success = Ok tt ->
  effects
    (then_catch (Some data)
       (fun data =>
          success <- lift (get_prop data "success") ;;
          if truthy success then on_success else on_failure data)
       on_error) =
  effects on_success.
Proof.
  intros Hs Ht Hr. rewrite effects_then_catch_data.
  rewrite Hs, bind_lift_ok, Ht, Hr. apply app_nil_r.
Qed.

(** An envelope whose [success] can be read is an object, so reading its
    [message] does not throw. *)
Lemma message_readable (data success : jsval) :
  get_prop data "success" = Ok success ->
  exists message, get_prop data "message" = Ok message.
Proof.
  destruct data; simpl; try discriminate; intros _; eauto.
  destruct (assoc "message" fields); eauto.
Qed.

(** ** Application-level failure *)

Ltac read_cookie H :=
  match goal with
  | |- context [getCookie ?c ?n] =>
      destruct (getCookie c n) as [?token | ?e];
      [ rewrite bind_lift_ok in H |- *
      | rewrite bind_lift_throw in H; discriminate H ]
  end.

Lemma Some_eq {A} (a b : A) : Some a = Some b -> a = b.
Proof. intros [= ->]. reflexivity. Qed.

Ltac sent H Hserver :=
  rewrite first_fetch_fetch_json in H; apply Some_eq in H;
  rewrite <- H in Hserver;
  rewrite effects_fetch_json, Hserver;
  cbv beta iota delta [response_json].

Lemma failure_outcome (pg : page) (op : operation) (data success : jsval) :
  answered pg op data ->
  get_prop data "success" = Ok success ->
  truthy success = false ->
  exists message,
    get_prop data "message" = Ok message /\
    match failure_fallback op with
    | Some fallback =>
        In (InsertAlert "alert alert-danger"
              (if truthy message then message else JStr fallback))
           (effects (run pg op))
    | None =>
        forall className text,
          ~ In (InsertAlert className text) (effects (run pg op))
    end.
Proof.
  intros (req & ok & H & Hserver) Hs Hf.
  destruct (message_readable _ _ Hs) as [message Hm].
  exists message. split; [exact Hm |].
  destruct op; cbv beta iota delta [run failure_fallback] in H |- *.
  - (* addToCart *)
    unfold addToCart in H |- *. read_cookie H. sent H Hserver.
    erewrite effects_failure_branch by eassumption.
    right. left. reflexivity.
  - (* updateQuantity *)
    unfold updateQuantity in H |- *.
    destruct (lt_one quantity); [discriminate H |].
    read_cookie H. sent H Hserver.
    rewrite effects_then_catch_data, Hs, bind_lift_ok, Hf.
    intros className text [Hin | []]. discriminate Hin.
  - (* removeFromCart *)
    unfold removeFromCart in H |- *.
    rewrite effects_confirm_bind in H |- *.
    rewrite first_fetch_skip in H by discriminate.
    destruct (confirm pg _); [| discriminate H].
    read_cookie H. sent H Hserver.
    rewrite effects_then_catch_data, Hs, bind_lift_ok, Hf.
    intros className text [Hin | [Hin | []]]; discriminate Hin.
  - (* applyCoupon *)
    unfold applyCoupon in H |- *.
    destruct (element_value _) as [[| c code'] |]; try discriminate H.
    read_cookie H. sent H Hserver.
    erewrite effects_failure_branch by eassumption.
    right. left. reflexivity.
  - (* requestWithdrawal *)
    unfold requestWithdrawal in H |- *.
    destruct (element_value _) as [[| c amount'] |]; try discriminate H.
    destruct (le_zero _); [discriminate H |].
    rewrite effects_confirm_bind in H |- *.
    rewrite first_fetch_skip in H by discriminate.
    destruct (confirm pg _); [| discriminate H].
    read_cookie H. sent H Hserver.
    erewrite effects_failure_branch by eassumption.
    right. right. left. reflexivity.
  - (* updateBankDetails *)
    unfold updateBankDetails in H |- *.
    destruct (getElementById pg "bankDetailsForm") as [form |];
      [| discriminate H].
    read_cookie H. sent H Hserver.
    erewrite effects_failure_branch by eassumption.
    right. left. reflexivity.
Qed.

(** C2 fails for [updateQuantity]: its request is answered with
    [{success: false}] and the handler does nothing at all. *)
Lemma reports_failure_counterexample :
  ~ reports_failure demo_page (UpdateQuantity "3" (of_Z 2)).
Proof.
  intro H.
  destruct (H (JObj [("success", JBool false)])) as [text Hin].
  - eexists _, _. split; lazy; reflexivity.
  - reflexivity.
  - vm_compute in Hin. destruct Hin as [Hin | []]. discriminate Hin.
Qed.

(** C2, amended.  On an envelope with [success: false], [addToCart],
    [applyCoupon], [requestWithdrawal] and [updateBankDetails] show a danger
    toast whose text is the envelope's [message] when that is truthy (present
    and not empty) and the handler's own fallback text otherwise;
    [updateQuantity] and [removeFromCart] show no toast. *)
Theorem failure_toast (pg : page) (op : operation) (data : jsval) :
  answered pg op data ->
  get_prop data "success" = Ok (JBool false) ->
  exists message,
    get_prop data "message" = Ok message /\
    match failure_fallback op with
    | Some fallback =>
        In (InsertAlert "alert alert-danger"
              (if truthy message then message else JStr fallback))
           (effects (run pg op))
    | None =>
        forall className text,
          ~ In (InsertAlert className text) (effects (run pg op))
    end.
Proof.
  intros Ha Hs. exact (failure_outcome pg op data (JBool false) Ha Hs eq_refl).
Qed.

Lemma demo_coupon_answered : answered demo_page ApplyCoupon coupon_expired.
Proof. exists demo_coupon_request, true. split; vm_compute; reflexivity. Defined.

Lemma failure_toast_witness :
  answered demo_page ApplyCoupon coupon_expired /\
  get_prop coupon_expired "success" = Ok (JBool false) /\
  exists message,
    get_prop coupon_expired "message" = Ok message /\
    In (InsertAlert "alert alert-danger"
          (if truthy message then message else JStr "Invalid coupon"))
       (effects (run demo_page ApplyCoupon)).
Proof.
  split; [exact demo_coupon_answered |].
  split; [reflexivity |].
  exact (failure_toast demo_page ApplyCoupon coupon_expired
           demo_coupon_answered eq_refl).
Defined.

(** C8. When the answer to [applyCoupon]'s request is
    [{success: false, message: "Coupon expired"}], the handler shows a danger
    toast with that text and schedules no reload: the request, the toast and
    the toast's removal timer are all that happens. *)
Theorem applyCoupon_expired (pg : page) (req : request) (ok : bool) (data : jsval) :
  first_fetch (effects (applyCoupon pg)) = Some req ->
  server pg req = Http ok (Some data) ->
  get_prop data "success" = Ok (JBool false) ->
  get_prop data "message" = Ok (JStr "Coupon expired") ->
  effects (applyCoupon pg) =
    [Fetch req;
     InsertAlert "alert alert-danger" (JStr "Coupon expired");
     SetTimeout RemoveAlert 5000] /\
  reloads (effects (applyCoupon pg)) = false.
Proof.
  intros H Hserver Hs Hm.
  assert (Ht : effects (applyCoupon pg) =
               [Fetch req;
                InsertAlert "alert alert-danger" (JStr "Coupon expired");
                SetTimeout RemoveAlert 5000]).
  { unfold applyCoupon in H |- *.
    destruct (element_value _) as [[| c code'] |]; try discriminate H.
    read_cookie H. sent H Hserver.
    erewrite effects_failure_branch by first [eassumption | reflexivity].
    rewrite H. reflexivity. }
  split; [exact Ht | rewrite Ht; reflexivity].
Qed.

Lemma applyCoupon_expired_witness :
  first_fetch (effects (applyCoupon demo_page)) = Some demo_coupon_request /\
  server demo_page demo_coupon_request = Http true (Some coupon_expired) /\
  get_prop coupon_expired "success" = Ok (JBool false) /\
  get_prop coupon_expired "message" = Ok (JStr "Coupon expired") /\
  effects (applyCoupon demo_page) =
    [Fetch demo_coupon_request;
     InsertAlert "alert alert-danger" (JStr "Coupon expired");
     SetTimeout RemoveAlert 5000] /\
  reloads (effects (applyCoupon demo_page)) = false.
Proof.
  assert (H1 : first_fetch (effects (applyCoupon demo_page))
               = Some demo_coupon_request) by (vm_compute; reflexivity).
  assert (H2 : server demo_page demo_coupon_request
               = Http true (Some coupon_expired)) by (vm_compute; reflexivity).
  split; [exact H1 |]. split; [exact H2 |].
  split; [reflexivity |]. split; [reflexivity |].
  exact (applyCoupon_expired demo_page demo_coupon_request true coupon_expired
           H1 H2 eq_refl eq_refl).
Defined.

(** ** Adding to the cart *)

Lemma snd_bind {A B} (m : M A) (k : A -> M B) (a : A) :
  snd m = Ok a -> snd (bind m k) = snd (k a).
Proof.
  unfold bind. destruct m as [t r]. simpl. intros ->.
  destruct (k a). reflexivity.
Qed.

Lemma updateCartCount_returns (pg : page) : snd (updateCartCount pg) = Ok tt.
Proof.
  unfold updateCartCount.
  destruct (URLS pg) as [urls |]; [| reflexivity].
  destruct (cartCount urls) as [[| c u'] |]; reflexivity.
Qed.

(** What the badge refresh does when everything it needs is there. *)
Lemma updateCartCount_updates (pg : page) (urls : registry) (u : string)
    (answer count : jsval) :
  URLS pg = Some urls ->
  cartCount urls = Some u ->
  u <> "" ->
  server pg (get_request u) = Http true (Some answer) ->
  get_prop answer "count" = Ok count ->
  getElementById pg "cartCount" <> None ->
  effects (updateCartCount pg) =
  [Fetch (get_request u); SetTextContent "cartCount" count].
Proof.
  intros Hu Hc Hne Hserver Hcount Hbadge. unfold updateCartCount.
  rewrite Hu, Hc. destruct u as [| c u']; [destruct (Hne eq_refl) |].
  rewrite effects_emit_bind, Hserver.
  cbv beta iota delta [ok_response_json].
  rewrite effects_then_catch_data.
  destruct (getElementById pg "cartCount"); [| destruct (Hbadge eq_refl)].
  rewrite Hcount, bind_lift_ok. reflexivity.
Qed.

(** C9. When the answer to [addToCart]'s request says [success: true]
    (whether or not it carries a message), the handler shows the toast
    'Product added to cart!', runs the in-place badge refresh
    [updateCartCount] and causes no reload.  The refresh writes the count the
    server reports into the [cartCount] badge whenever the URL registry names
    the count endpoint, that endpoint answers with an ok JSON response and
    the badge element exists. *)
Theorem addToCart_success (pg : page) (productId : string)
    (req : request) (ok : bool) (data : jsval) :
  first_fetch (effects (addToCart pg productId)) = Some req ->
  server pg req = Http ok (Some data) ->
  get_prop data "success" = Ok (JBool true) ->
  effects (addToCart pg productId) =
    Fetch req
      :: InsertAlert "alert alert-success" (JStr "Product added to cart!")
      :: SetTimeout RemoveAlert 5000
      :: effects (updateCartCount pg) /\
  reloads (effects (addToCart pg productId)) = false /\
  forall urls u answer count,
    URLS pg = Some urls ->
    cartCount urls = Some u ->
    u <> "" ->
    server pg (get_request u) = Http true (Some answer) ->
    get_prop answer "count" = Ok count ->
    getElementById pg "cartCount" <> None ->
    In (SetTextContent "cartCount" count) (effects (addToCart pg productId)).
Proof.
  intros H Hserver Hs.
  assert (Ht : effects (addToCart pg productId) =
               Fetch req
                 :: InsertAlert "alert alert-success"
                      (JStr "Product added to cart!")
                 :: SetTimeout RemoveAlert 5000
                 :: effects (updateCartCount pg)).
  { unfold addToCart in H |- *. read_cookie H. sent H Hserver.
    erewrite effects_success_branch with (success := JBool true);
      [ | exact Hs | reflexivity
        | rewrite (snd_bind _ _ tt) by reflexivity;
          apply updateCartCount_returns ].
    rewrite effects_showMessage_bind, H. reflexivity. }
  split; [exact Ht |]. rewrite Ht. split.
  - change (reloads (effects (updateCartCount pg)) = false).
    apply emits_only_quiet_reloads, updateCartCount_quiet.
  - intros urls u answer count Hu Hc Hne Hcs Hcount Hbadge.
    rewrite (updateCartCount_updates pg urls u answer count) by assumption.
    do 4 right. left. reflexivity.
Qed.

Lemma addToCart_success_witness :
  first_fetch (effects (addToCart demo_page "7")) = Some demo_add_request /\
  server demo_page demo_add_request
    = Http true (Some (JObj [("success", JBool true)])) /\
  effects (addToCart demo_page "7") =
    [Fetch demo_add_request;
     InsertAlert "alert alert-success" (JStr "Product added to cart!");
     SetTimeout RemoveAlert 5000;
     Fetch (get_request "/orders/cart-count/");
     SetTextContent "cartCount" (JNum (of_Z 3))] /\
  reloads (effects (addToCart demo_page "7")) = false.
Proof.
  assert (H1 : first_fetch (effects (addToCart demo_page "7"))
               = Some demo_add_request) by (vm_compute; reflexivity).
  assert (H2 : server demo_page demo_add_request
               = Http true (Some (JObj [("success", JBool true)])))
    by (vm_compute; reflexivity).
  destruct (addToCart_success demo_page "7" demo_add_request true
              (JObj [("success", JBool true)]) H1 H2 eq_refl)
    as (Ht & Hq & _).
  split; [exact H1 |]. split; [exact H2 |].
  split; [rewrite Ht; vm_compute; reflexivity | exact Hq].
Defined.

(** C10. With the quantity input of the product missing from the page, or
    present with an empty value, [addToCart] posts a quantity of 1 (given a
    readable CSRF cookie, without which no handler sends anything). *)
Theorem addToCart_default_quantity (pg : page) (productId : string)
    (token : jsval) :
  getElementById pg ("quantity_" ++ productId) = None \/
  (exists el, getElementById pg ("quantity_" ++ productId) = Some el /\
              value el = Some "") ->
  getCookie (document_cookie pg) "csrftoken" = Ok token ->
  first_fetch (effects (addToCart pg productId)) =
  Some {| url := "/orders/add-to-cart/" ++ productId ++ "/";
          method := "POST";
          headers := [("Content-Type", JStr "application/json");
                      ("X-CSRFToken", token)];
          payload := Some (JsonBody [("quantity", JNum (of_Z 1))]) |}.
Proof.
  intros Hq Hc. unfold addToCart.
  rewrite Hc, bind_lift_ok, first_fetch_fetch_json.
  assert (Hv : value_or_one (getElementById pg ("quantity_" ++ productId))
               = inr 1%Z).
  { unfold value_or_one, element_value.
    destruct Hq as [-> | (el & -> & ->)]; reflexivity. }
  rewrite Hv. reflexivity.
Qed.

Lemma addToCart_default_quantity_witness :
  (getElementById demo_page ("quantity_" ++ "7") = None \/
   (exists el, getElementById demo_page ("quantity_" ++ "7") = Some el /\
               value el = Some "")) /\
  getCookie (document_cookie demo_page) "csrftoken" = Ok (JStr "XYZ") /\
  first_fetch (effects (addToCart demo_page "7")) = Some demo_add_request.
Proof.
  assert (H1 : getElementById demo_page ("quantity_" ++ "7") = None \/
               (exists el, getElementById demo_page ("quantity_" ++ "7") = Some el
                           /\ value el = Some ""))
    by (left; reflexivity).
  assert (H2 : getCookie (document_cookie demo_page) "csrftoken"
               = Ok (JStr "XYZ")) by (vm_compute; reflexivity).
  split; [exact H1 |]. split; [exact H2 |].
  exact (addToCart_default_quantity demo_page "7" (JStr "XYZ") H1 H2).
Defined.

(** A Number that is zero or below is less than 1. *)
Lemma le_zero_lt_one (n : number) : le_zero n = true -> lt_one n = true.
Proof.
  destruct n as [| negative | q]; simpl; intro H; [discriminate H | exact H |].
  apply Qle_bool_iff in H. apply negb_true_iff.
  destruct (Qle_bool 1 q) eqn:E; [| reflexivity].
  apply Qle_bool_iff in E. exfalso.
  assert (Hle : (1 <= 0)%Q) by (eapply Qle_trans; eassumption).
  now apply Hle.
Qed.

(** What is not less than 1. *)
Lemma lt_one_false (n : number) :
  lt_one n = false <->
  n = NaN \/ n = Inf false \/ exists q, n = Fin q /\ (1 <= q)%Q.
Proof.
  destruct n as [| negative | q]; simpl.
  - split; [now left | reflexivity].
  - split.
    + intros ->. right. now left.
    + intros [H | [H | (q & H & _)]]; try discriminate H. now injection H as ->.
  - rewrite negb_false_iff, Qle_bool_iff. split.
    + intro H. right. right. now exists q.
    + intros [H | [H | (q' & H & Hq)]]; try discriminate H.
      now injection H as ->.
Qed.

(** C5. A quantity of zero or below makes [updateQuantity] return at once:
    nothing is sent, nothing else happens. *)
Theorem updateQuantity_rejects_nonpositive
    (pg : page) (itemId : string) (quantity : number) :
  le_zero quantity = true ->
  updateQuantity pg itemId quantity = ret tt /\
  forall req, ~ In (Fetch req) (effects (updateQuantity pg itemId quantity)).
Proof.
  intro Hq. unfold updateQuantity. rewrite (le_zero_lt_one quantity Hq).
  split; [reflexivity | intros req []].
Qed.

Lemma updateQuantity_rejects_nonpositive_witness :
  le_zero (of_Z (-2)) = true /\
  updateQuantity demo_page "3" (of_Z (-2)) = ret tt /\
  forall req,
    ~ In (Fetch req) (effects (updateQuantity demo_page "3" (of_Z (-2)))).
Proof.
  assert (H : le_zero (of_Z (-2)) = true) by reflexivity.
  split; [exact H |].
  exact (updateQuantity_rejects_nonpositive demo_page "3" (of_Z (-2)) H).
Defined.

Example updateQuantity_not_a_number :
  first_fetch (effects (updateQuantity demo_page "3" NaN))
  = Some {| url := "/orders/update-cart/3/";
            method := "POST";
            headers := [("Content-Type", JStr "application/json");
                        ("X-CSRFToken", JStr "XYZ")];
            payload := Some (JsonBody [("quantity", JNum NaN)]) |}.
Proof. vm_compute. reflexivity. Qed.

(** C7. [formatCurrency(1234567.5)] is the glyph followed by the amount with
    comma-separated thousands and two decimals. *)
Theorem formatCurrency_example :
  formatCurrency (Fin (2469135 # 2)) = Some "₹1,234,567.50".
Proof. vm_compute. reflexivity. Qed.

(** ** The cookie reader *)

Lemma scan_cookies_absent (name cookie : string) (pieces : list string) :
  ~ Str.occurs name cookie ->
  (forall piece, In piece pieces -> Str.occurs piece cookie) ->
  scan_cookies name pieces = Ok JNull.
Proof.
  intros Habsent. induction pieces as [| c rest IH]; intro Hparts; simpl.
  - reflexivity.
  - destruct (String.eqb _ _) eqn:E.
    + exfalso. apply Habsent. apply String.eqb_eq in E.
      apply StrFacts.occurs_trans with (b := c);
        [| apply Hparts; now left].
      apply StrFacts.occurs_trans with (b := trim c);
        [| apply TrimFacts.trim_occurs].
      rewrite (StrFacts.take_drop (String.length name + 1) (trim c)), E.
      rewrite !StrFacts.append_assoc. apply StrFacts.occurs_app_l.
    + apply IH. intros piece Hin. apply Hparts. now right.
Qed.

(** C6. On the cookie string "a=1; csrftoken=XYZ; b=2" the reader returns
    "XYZ" for [csrftoken]; and on any cookie string in which a name does not
    occur it returns null for that name. *)
Theorem getCookie_spec :
  getCookie "a=1; csrftoken=XYZ; b=2" "csrftoken" = Ok (JStr "XYZ") /\
  forall cookie name : string,
    ~ Str.occurs name cookie -> getCookie cookie name = Ok JNull.
Proof.
  split; [vm_compute; reflexivity |].
  intros cookie name Habsent. unfold getCookie.
  destruct (nonempty cookie); [| reflexivity].
  apply scan_cookies_absent with (cookie := cookie); [exact Habsent |].
  intros piece. apply StrFacts.split_occurs.
Qed.

Lemma getCookie_spec_witness :
  ~ Str.occurs "sessionid" "a=1; csrftoken=XYZ; b=2" /\
  getCookie "a=1; csrftoken=XYZ; b=2" "sessionid" = Ok JNull.
Proof.
  assert (H : ~ Str.occurs "sessionid" "a=1; csrftoken=XYZ; b=2").
  { intro H. apply StrFacts.occursb_complete in H. vm_compute in H.
    discriminate H. }
  split; [exact H | exact (proj2 getCookie_spec _ _ H)].
Defined.

Lemma break_at_no_eq (a b : string) :
  no_eq a = true -> break_at "=" (a ++ String "=" b) = (a, b).
Proof.
  induction a as [| c a IH]; simpl; intro H; [reflexivity |].
  apply andb_prop in H as [Hc Ha].
  destruct (Ascii.eqb c "="); [discriminate Hc |].
  now rewrite (IH Ha).
Qed.

(** The same under the other reading of "does not occur": for a name
    without [=], as cookie names are, the reader returns null whenever no
    cookie of the string bears that name (even if the name is part of a
    longer one). *)
Lemma getCookie_not_a_cookie_name (cookie name : string) :
  no_eq name = true ->
  ~ In name (cookie_names cookie) ->
  getCookie cookie name = Ok JNull.
Proof.
  intros Hname Habsent. unfold getCookie.
  destruct (nonempty cookie); [| reflexivity].
  unfold cookie_names in Habsent.
  induction (Str.split ";" cookie) as [| c rest IH]; [reflexivity |].
  simpl in Habsent |- *.
  destruct (String.eqb _ _) eqn:E.
  - exfalso. apply Habsent. left. apply String.eqb_eq in E.
    rewrite (StrFacts.take_drop (String.length name + 1) (trim c)), E.
    rewrite StrFacts.append_assoc.
    change ("=" ++ Str.drop (String.length name + 1) (trim c))
      with (String "=" (Str.drop (String.length name + 1) (trim c))).
    now rewrite break_at_no_eq.
  - apply IH. intro H. apply Habsent. now right.
Qed.

Example getCookie_longer_name :
  getCookie "xcsrftoken=1; csrftoken2=2" "csrftoken" = Ok JNull.
Proof. vm_compute. reflexivity. Qed.

Example getCookie_malformed_escape :
  getCookie "csrftoken=%E0%A4%A" "csrftoken" = Throw URIError.
Proof. vm_compute. reflexivity. Qed.

(** ** Search *)

(** Past the guard of [searchProducts]. *)
Lemma searchProducts_guard (query : string) :
  ~ blank query ->
  negb (nonempty query) || String.eqb (trim query) "" = false.
Proof.
  intro Hnb.
  assert (Hq : nonempty query = true).
  { destruct query; [destruct Hnb; constructor | reflexivity]. }
  assert (Ht : String.eqb (trim query) "" = false).
  { apply String.eqb_neq. intro H. apply Hnb, TrimFacts.trim_empty_blank, H. }
  now rewrite Hq, Ht.
Qed.

(** C4 fails on a search term that is not blank and holds a surrogate code
    unit without partner: [encodeURIComponent] throws, and [searchProducts]
    neither navigates nor shows a toast. *)
Lemma searchProducts_counterexample :
  ~ blank cut_emoji /\
  searchProducts cut_emoji = ([], Throw URIError) /\
  ~ navigates cut_emoji.
Proof.
  assert (H : searchProducts cut_emoji = ([], Throw URIError))
    by (vm_compute; reflexivity).
  split; [| split; [exact H |]].
  - intro Hb. apply TrimFacts.blank_trim_empty in Hb. vm_compute in Hb.
    discriminate Hb.
  - intros [href Hin]. rewrite H in Hin. exact Hin.
Qed.

(** C4, amended.  A query that is empty or made of white space only gets the
    warning toast and no navigation; any other query in which no surrogate
    code unit is without partner navigates to [/products/search/?q=] followed
    by the percent-encoded query; on any other query that holds a surrogate
    without partner [encodeURIComponent] throws [URIError], and nothing is
    shown or navigated to. *)
Theorem searchProducts_spec (query : string) :
  (blank query ->
   effects (searchProducts query) =
     [InsertAlert "alert alert-warning" (JStr "Please enter search term");
      SetTimeout RemoveAlert 5000] /\
   forall href, ~ In (SetHref href) (effects (searchProducts query))) /\
  (~ blank query -> isWellFormed query = true ->
   exists encoded,
     encodeURIComponent query = Ok encoded /\
     effects (searchProducts query) =
       [SetHref ("/products/search/?q=" ++ encoded)]) /\
  (~ blank query -> isWellFormed query = false ->
   searchProducts query = ([], Throw URIError)).
Proof.
  unfold searchProducts. split; [| split].
  - intro Hb. apply TrimFacts.blank_trim_empty in Hb. rewrite Hb.
    rewrite orb_true_r. split; [reflexivity |].
    intros href [H | [H | []]]; discriminate H.
  - intros Hnb Hwf. rewrite (searchProducts_guard query Hnb).
    exists (uri_escape query). unfold encodeURIComponent. rewrite Hwf.
    split; reflexivity.
  - intros Hnb Hwf. rewrite (searchProducts_guard query Hnb).
    unfold encodeURIComponent. rewrite Hwf. reflexivity.
Qed.

Lemma searchProducts_spec_witness :
  (blank "  " /\
   effects (searchProducts "  ") =
     [InsertAlert "alert alert-warning" (JStr "Please enter search term");
      SetTimeout RemoveAlert 5000]) /\
  (~ blank "rose water" /\
   exists encoded,
     encodeURIComponent "rose water" = Ok encoded /\
     effects (searchProducts "rose water") =
       [SetHref ("/products/search/?q=" ++ encoded)]) /\
  (~ blank cut_emoji /\
   searchProducts cut_emoji = ([], Throw URIError)).
Proof.
  assert (H1 : blank "  ").
  { apply (blank_more " " " "); [vm_compute; tauto |].
    apply (blank_more " " ""); [vm_compute; tauto | constructor]. }
  assert (H2 : ~ blank "rose water").
  { intro H. apply TrimFacts.blank_trim_empty in H. vm_compute in H.
    discriminate H. }
  assert (H3 : ~ blank cut_emoji).
  { intro H. apply TrimFacts.blank_trim_empty in H. vm_compute in H.
    discriminate H. }
  split; [| split].
  - split; [exact H1 | exact (proj1 (proj1 (searchProducts_spec "  ") H1))].
  - split; [exact H2 |].
    exact (proj1 (proj2 (searchProducts_spec "rose water")) H2 eq_refl).
  - split; [exact H3 |].
    exact (proj2 (proj2 (searchProducts_spec cut_emoji)) H3 eq_refl).
Defined.

(** ** Filters *)




Example applyFilters_demo :
  effects (applyFilters demo_page) = [SetSearch "category=face+care&max_price=500"].
Proof. vm_compute. reflexivity. Qed.

(** * Further properties *)

(** ** The whole trace of a handler that has sent its request *)

Lemma first_fetch_In (t : list effect) (req : request) :
  first_fetch t = Some req -> In (Fetch req) t.
Proof.
  induction t as [| e t IH]; [discriminate |].
  destruct e; simpl; try (intro H; right; exact (IH H)).
  intros [= ->]. now left.
Qed.

Lemma first_fetch_none (t : list effect) :
  first_fetch t = None <-> forall req, ~ In (Fetch req) t.
Proof.
  induction t as [| e t IH]; simpl.
  - split; [intros _ req [] | reflexivity].
  - destruct e;
      try (rewrite IH; split;
           [ intros H req [Hd | Hin]; [discriminate Hd | exact (H req Hin)]
           | intros H req Hin; exact (H req (or_intror Hin)) ]).
    split; [discriminate | intro H; destruct (H req (or_introl eq_refl))].
Qed.

Ltac settle :=
  match goal with
  | |- context [then_catch ?settled _ _] =>
      destruct settled as [data |]; [| reflexivity];
      rewrite effects_then_catch_data; cbv beta iota delta [outcome];
      destruct (get_prop data "success") as [success | x] eqn:Hs;
      [ rewrite bind_lift_ok | rewrite bind_lift_throw; reflexivity ];
      destruct (truthy success) eqn:Ht
  end.

Lemma run_sent (pg : page) (op : operation) (req : request) :
  first_fetch (effects (run pg op)) = Some req ->
  effects (run pg op) =
  (prelude pg op
   ++ Fetch req :: outcome pg op (response_json (server pg req)))%list.
Proof.
  intro H. pose proof (eq_refl (server pg req)) as Hserver.
  destruct op; cbv beta iota delta [run prelude] in H |- *.
  - unfold addToCart in H |- *. read_cookie H.
    rewrite first_fetch_fetch_json in H. apply Some_eq in H.
    rewrite effects_fetch_json, H. cbv beta iota delta [app]. f_equal.
    settle.
    + rewrite effects_showMessage_bind.
      rewrite (snd_bind _ _ tt) by reflexivity.
      rewrite updateCartCount_returns. rewrite app_nil_r. reflexivity.
    + destruct (message_readable _ _ Hs) as [message Hm].
      rewrite Hm, bind_lift_ok. reflexivity.
  - unfold updateQuantity in H |- *.
    destruct (lt_one quantity); [discriminate H |].
    read_cookie H.
    rewrite first_fetch_fetch_json in H. apply Some_eq in H.
    rewrite effects_fetch_json, H. cbv beta iota delta [app]. f_equal.
    settle; [reflexivity |].
    destruct (message_readable _ _ Hs) as [message ->]. reflexivity.
  - unfold removeFromCart in H |- *.
    rewrite effects_confirm_bind in H |- *.
    rewrite first_fetch_skip in H by discriminate.
    destruct (confirm pg _); [| discriminate H].
    read_cookie H.
    rewrite first_fetch_fetch_json in H. apply Some_eq in H.
    rewrite effects_fetch_json, H. cbv beta iota delta [app]. do 2 f_equal.
    settle; [reflexivity |].
    destruct (message_readable _ _ Hs) as [message ->]. reflexivity.
  - unfold applyCoupon in H |- *.
    destruct (element_value _) as [[| c code'] |]; try discriminate H.
    read_cookie H.
    rewrite first_fetch_fetch_json in H. apply Some_eq in H.
    rewrite effects_fetch_json, H. cbv beta iota delta [app]. f_equal.
    settle.
    + reflexivity.
    + destruct (message_readable _ _ Hs) as [message Hm].
      rewrite Hm, bind_lift_ok. reflexivity.
  - unfold requestWithdrawal in H |- *.
    destruct (element_value _) as [[| c amount'] |]; try discriminate H.
    destruct (le_zero _); [discriminate H |].
    rewrite effects_confirm_bind in H |- *.
    rewrite first_fetch_skip in H by discriminate.
    destruct (confirm pg _); [| discriminate H].
    read_cookie H.
    rewrite first_fetch_fetch_json in H. apply Some_eq in H.
    rewrite effects_fetch_json, H. cbv beta iota delta [app]. do 2 f_equal.
    settle.
    + reflexivity.
    + destruct (message_readable _ _ Hs) as [message Hm].
      rewrite Hm, bind_lift_ok. reflexivity.
  - unfold updateBankDetails in H |- *.
    destruct (getElementById pg "bankDetailsForm") as [form |];
      [| discriminate H].
    read_cookie H.
    rewrite first_fetch_fetch_json in H. apply Some_eq in H.
    rewrite effects_fetch_json, H. cbv beta iota delta [app]. f_equal.
    settle.
    + reflexivity.
    + destruct (message_readable _ _ Hs) as [message Hm].
      rewrite Hm, bind_lift_ok. reflexivity.
Qed.

(** ** When a handler sends *)

Lemma run_gate (pg : page) (op : operation) :
  (exists req, first_fetch (effects (run pg op)) = Some req) <->
  (validated pg op /\
   exists token, getCookie (document_cookie pg) "csrftoken" = Ok token).
Proof.
  destruct op; cbv beta iota delta [run validated].
  - unfold addToCart.
    destruct (getCookie _ _) as [token | e];
      [rewrite bind_lift_ok, first_fetch_fetch_json | rewrite bind_lift_throw].
    + split; [intros _; split; [exact I | eauto] | intros _; eauto].
    + split; [intros [req H]; discriminate H | intros [_ [token H]]; discriminate H].
  - unfold updateQuantity. destruct (lt_one quantity) eqn:Hq.
    + split; [intros [req H]; discriminate H | intros [H _]; discriminate H].
    + destruct (getCookie _ _) as [token | e];
        [rewrite bind_lift_ok, first_fetch_fetch_json | rewrite bind_lift_throw].
      * split; [intros _; split; [reflexivity | eauto] | intros _; eauto].
      * split; [intros [req H]; discriminate H
               | intros [_ [token H]]; discriminate H].
  - unfold removeFromCart. rewrite effects_confirm_bind.
    rewrite first_fetch_skip by discriminate.
    destruct (confirm pg _).
    + destruct (getCookie _ _) as [token | e];
        [rewrite bind_lift_ok, first_fetch_fetch_json | rewrite bind_lift_throw].
      * split; [intros _; split; [reflexivity | eauto] | intros _; eauto].
      * split; [intros [req H]; discriminate H
               | intros [_ [token H]]; discriminate H].
    + split; [intros [req H]; discriminate H | intros [H _]; discriminate H].
  - unfold applyCoupon.
    destruct (element_value _) as [[| c code'] |].
    + split; [intros [req H]; discriminate H
             | intros [(code & [= <-] & Hne) _]; now destruct Hne].
    + destruct (getCookie _ _) as [token | e];
        [rewrite bind_lift_ok, first_fetch_fetch_json | rewrite bind_lift_throw].
      * split; [| intros _; eauto].
        intros _. split; [| eauto]. eexists. split; [reflexivity | discriminate].
      * split; [intros [req H]; discriminate H
               | intros [_ [token H]]; discriminate H].
    + split; [intros [req H]; discriminate H
             | intros [(code & H & _) _]; discriminate H].
  - unfold requestWithdrawal.
    destruct (element_value _) as [[| c amount'] |].
    + split; [intros [req H]; discriminate H
             | intros [(amount & [= <-] & Hne & _) _]; now destruct Hne].
    + destruct (le_zero _) eqn:Hle.
      * split; [intros [req H]; discriminate H |].
        intros [(amount & [= <-] & _ & Hle' & _) _]. congruence.
      * rewrite effects_confirm_bind.
        rewrite first_fetch_skip by discriminate.
        destruct (confirm pg _) eqn:Hc.
        -- destruct (getCookie _ _) as [token | e];
             [rewrite bind_lift_ok, first_fetch_fetch_json
             | rewrite bind_lift_throw].
           ++ split; [| intros _; eauto].
              intros _. split; [| eauto].
              eexists. repeat split; [discriminate | exact Hle | exact Hc].
           ++ split; [intros [req H]; discriminate H
                     | intros [_ [token H]]; discriminate H].
        -- split; [intros [req H]; discriminate H |].
           intros [(amount & [= <-] & _ & _ & Hc') _]. congruence.
    + split; [intros [req H]; discriminate H
             | intros [(amount & H & _) _]; discriminate H].
  - unfold updateBankDetails.
    destruct (getElementById pg "bankDetailsForm") as [form |].
    + destruct (getCookie _ _) as [token | e];
        [rewrite bind_lift_ok, first_fetch_fetch_json | rewrite bind_lift_throw].
      * split; [intros _; split; [discriminate | eauto] | intros _; eauto].
      * split; [intros [req H]; discriminate H
               | intros [_ [token H]]; discriminate H].
    + split; [intros [req H]; discriminate H | intros [H _]; now destruct H].
Qed.

(** A handler sends its request exactly when its own checks pass (input
    present and valid, the user's confirmation where one is asked) and the
    CSRF cookie can be read.  The check of [updateQuantity] is that the
    quantity is not less than 1, which holds of every Number from 1 on, of
    plus infinity and of not-a-number. *)
Theorem sends_iff (pg : page) (op : operation) :
  (exists req, first_fetch (effects (run pg op)) = Some req) <->
  (validated pg op /\
   exists token, getCookie (document_cookie pg) "csrftoken" = Ok token).
Proof. exact (run_gate pg op). Qed.

(** Without a readable CSRF cookie no handler sends anything: the handler
    throws where it builds the request. *)
Theorem unreadable_cookie_sends_nothing (pg : page) (op : operation) (e : exn) :
  getCookie (document_cookie pg) "csrftoken" = Throw e ->
  forall req, ~ In (Fetch req) (effects (run pg op)).
Proof.
  intro Hc. apply first_fetch_none.
  destruct (first_fetch (effects (run pg op))) as [req |] eqn:H; [| reflexivity].
  destruct (proj1 (run_gate pg op) (ex_intro _ req H)) as [_ [token Ht]].
  congruence.
Qed.

Lemma unreadable_cookie_sends_nothing_witness :
  getCookie (document_cookie broken_cookie_page) "csrftoken" = Throw URIError /\
  forall req, ~ In (Fetch req) (effects (run broken_cookie_page ApplyCoupon)).
Proof.
  assert (H : getCookie (document_cookie broken_cookie_page) "csrftoken"
              = Throw URIError) by (vm_compute; reflexivity).
  split; [exact H |].
  exact (unreadable_cookie_sends_nothing broken_cookie_page ApplyCoupon URIError H).
Defined.

(** When the user answers no to the confirmation dialog, [removeFromCart]
    and [requestWithdrawal] send nothing. *)
Theorem declined_confirmation_sends_nothing (pg : page) (op : operation) :
  (exists itemId, op = RemoveFromCart itemId) \/ op = RequestWithdrawal ->
  (forall message, confirm pg message = false) ->
  forall req, ~ In (Fetch req) (effects (run pg op)).
Proof.
  intros Hop Hno. apply first_fetch_none.
  destruct (first_fetch (effects (run pg op))) as [req |] eqn:H; [| reflexivity].
  destruct (proj1 (run_gate pg op) (ex_intro _ req H)) as [Hv _].
  destruct Hop as [[itemId ->] | ->]; simpl in Hv.
  - rewrite Hno in Hv. discriminate Hv.
  - destruct Hv as (amount & _ & _ & _ & Hc). rewrite Hno in Hc. discriminate Hc.
Qed.

Lemma declined_confirmation_sends_nothing_witness :
  ((exists itemId, RemoveFromCart "3" = RemoveFromCart itemId)
   \/ RemoveFromCart "3" = RequestWithdrawal) /\
  (forall message, confirm (offline_page false "50") message = false) /\
  forall req,
    ~ In (Fetch req) (effects (run (offline_page false "50") (RemoveFromCart "3"))).
Proof.
  assert (H1 : (exists itemId, RemoveFromCart "3" = RemoveFromCart itemId)
               \/ RemoveFromCart "3" = RequestWithdrawal)
    by (left; exists "3"; reflexivity).
  assert (H2 : forall message, confirm (offline_page false "50") message = false)
    by (intro; reflexivity).
  split; [exact H1 |]. split; [exact H2 |].
  exact (declined_confirmation_sends_nothing _ _ H1 H2).
Defined.

(** ** What follows the request *)

(** Transport failure.  When the request was sent and the response promise
    rejects, or the body is not JSON, or it is the JSON value [null], the
    handler logs the error; [addToCart], [applyCoupon], [requestWithdrawal]
    and [updateBankDetails] then show their generic danger toast, while
    [updateQuantity] and [removeFromCart] show nothing.  Nothing else
    happens: no reload, no second request. *)
Theorem transport_failure (pg : page) (op : operation) (req : request) :
  first_fetch (effects (run pg op)) = Some req ->
  server pg req = NetworkError \/
  (exists ok, server pg req = Http ok None) \/
  (exists ok, server pg req = Http ok (Some JNull)) ->
  effects (run pg op) =
  (prelude pg op
   ++ Fetch req
   :: ConsoleError "Error:"
   :: match transport_text op with
      | Some text =>
          [InsertAlert "alert alert-danger" (JStr text);
           SetTimeout RemoveAlert 5000]
      | None => []
      end)%list.
Proof.
  intros H Hserver. rewrite (run_sent pg op req H).
  destruct Hserver as [-> | [[ok ->] | [ok ->]]]; reflexivity.
Qed.

Lemma transport_failure_witness :
  let pg := offline_page true "50" in
  let req := {| url := "/affiliate/request-withdrawal/";
                method := "POST";
                headers := [("Content-Type", JStr "application/json");
                            ("X-CSRFToken", JStr "XYZ")];
                payload := Some (JsonBody [("amount", JNum (of_Z 50))]) |} in
  first_fetch (effects (run pg RequestWithdrawal)) = Some req /\
  effects (run pg RequestWithdrawal) =
    [Confirm "Request withdrawal of â‚¹50?";
     Fetch req;
     ConsoleError "Error:";
     InsertAlert "alert alert-danger" (JStr "Error processing request");
     SetTimeout RemoveAlert 5000].
Proof.
  intros pg req.
  assert (H : first_fetch (effects (run pg RequestWithdrawal)) = Some req)
    by (vm_compute; reflexivity).
  split; [exact H |].
  exact (transport_failure pg RequestWithdrawal req H (or_introl eq_refl)).
Defined.

(** Success.  When the answer's [success] is truthy, [updateQuantity] and
    [removeFromCart] reload the page at once and show no toast;
    [applyCoupon] and [requestWithdrawal] show their success toast and
    schedule the reload 1500 ms later; [updateBankDetails] shows its toast
    and never reloads; [addToCart] shows its toast and refreshes the badge. *)
Theorem success_outcome (pg : page) (op : operation) (req : request)
    (ok : bool) (data success : jsval) :
  first_fetch (effects (run pg op)) = Some req ->
  server pg req = Http ok (Some data) ->
  get_prop data "success" = Ok success ->
  truthy success = true ->
  effects (run pg op) =
  (prelude pg op
   ++ Fetch req
   :: match op with
      | AddToCart _ =>
          InsertAlert "alert alert-success" (JStr "Product added to cart!")
            :: SetTimeout RemoveAlert 5000 :: effects (updateCartCount pg)
      | UpdateQuantity _ _ | RemoveFromCart _ => [Reload]
      | ApplyCoupon =>
          [InsertAlert "alert alert-success" (JStr "Coupon applied!");
           SetTimeout RemoveAlert 5000; SetTimeout ReloadPage 1500]
      | RequestWithdrawal =>
          [InsertAlert "alert alert-success" (JStr "Withdrawal request submitted!");
           SetTimeout RemoveAlert 5000; SetTimeout ReloadPage 1500]
      | UpdateBankDetails =>
          [InsertAlert "alert alert-success" (JStr "Bank details updated!");
           SetTimeout RemoveAlert 5000]
      end)%list.
Proof.
  intros H Hserver Hs Ht. rewrite (run_sent pg op req H), Hserver.
  cbv beta iota delta [response_json outcome]. rewrite Hs, Ht.
  destruct op; reflexivity.
Qed.

(** A falsy or missing [success].  An answer whose [success] is missing
    (as in [{}]), [false], [0], [""] or [null] is handled as a failure: the
    four reporting handlers show a danger toast with the answer's message or
    their fallback text, the other two do nothing; no handler reloads. *)
Theorem falsy_success_is_failure (pg : page) (op : operation) (req : request)
    (ok : bool) (data success : jsval) :
  first_fetch (effects (run pg op)) = Some req ->
  server pg req = Http ok (Some data) ->
  get_prop data "success" = Ok success ->
  truthy success = false ->
  exists message,
    get_prop data "message" = Ok message /\
    effects (run pg op) =
    (prelude pg op
     ++ Fetch req
     :: match failure_fallback op with
        | Some fallback =>
            [InsertAlert "alert alert-danger"
               (if truthy message then message else JStr fallback);
             SetTimeout RemoveAlert 5000]
        | None => []
        end)%list.
Proof.
  intros H Hserver Hs Ht.
  destruct (message_readable _ _ Hs) as [message Hm].
  exists message. split; [exact Hm |].
  rewrite (run_sent pg op req H), Hserver.
  cbv beta iota delta [response_json outcome]. rewrite Hs, Ht, Hm.
  destruct op; reflexivity.
Qed.

Lemma success_outcome_witness :
  let pg := answering_page (JObj [("success", JNum (of_Z 1))]) in
  first_fetch (effects (run pg (UpdateQuantity "3" (of_Z 2)))) = Some update_request /\
  effects (run pg (UpdateQuantity "3" (of_Z 2))) = [Fetch update_request; Reload].
Proof.
  intro pg.
  assert (H : first_fetch (effects (run pg (UpdateQuantity "3" (of_Z 2))))
              = Some update_request) by (vm_compute; reflexivity).
  split; [exact H |].
  exact (success_outcome pg (UpdateQuantity "3" (of_Z 2)) update_request true
           (JObj [("success", JNum (of_Z 1))]) (JNum (of_Z 1))
           H eq_refl eq_refl eq_refl).
Defined.

Lemma falsy_success_is_failure_witness :
  let pg := answering_page (JObj []) in
  first_fetch (effects (run pg UpdateBankDetails)) = Some bank_request /\
  exists message,
    get_prop (JObj []) "message" = Ok message /\
    effects (run pg UpdateBankDetails) =
    [Fetch bank_request;
     InsertAlert "alert alert-danger"
       (if truthy message then message else JStr "Error updating details");
     SetTimeout RemoveAlert 5000].
Proof.
  intro pg.
  assert (H : first_fetch (effects (run pg UpdateBankDetails))
              = Some bank_request) by (vm_compute; reflexivity).
  split; [exact H |].
  exact (falsy_success_is_failure pg UpdateBankDetails bank_request true
           (JObj []) JUndefined H eq_refl eq_refl eq_refl).
Defined.

(** ** No retries *)

Lemma count_app {A} (f : A -> bool) (a b : list A) :
  length (filter f (a ++ b)) = (length (filter f a) + length (filter f b))%nat.
Proof. now rewrite filter_app, length_app. Qed.

Lemma emits_only_no_post {A} (m : M A) :
  emits_only (fun e => is_post e = false) m ->
  length (filter is_post (effects m)) = 0%nat.
Proof.
  unfold emits_only. induction (effects m) as [| e t IH]; intro H; [reflexivity |].
  simpl. rewrite (H e (or_introl eq_refl)). apply IH.
  intros e' He'. apply H. now right.
Qed.

Lemma updateCartCount_no_post (pg : page) :
  length (filter is_post (effects (updateCartCount pg))) = 0%nat.
Proof.
  apply emits_only_no_post.
  eapply emits_only_weaken; [| apply updateCartCount_requests].
  intros [] H; try reflexivity.
  destruct H as (urls & u & _ & _ & ->). reflexivity.
Qed.

Lemma outcome_no_post (pg : page) (op : operation) (settled : option jsval) :
  length (filter is_post (outcome pg op settled)) = 0%nat.
Proof.
  unfold outcome.
  destruct settled as [data |]; [| destruct op; reflexivity].
  destruct (get_prop data "success") as [success | x]; [| destruct op; reflexivity].
  destruct (truthy success).
  - destruct op; try reflexivity.
    unfold on_success. rewrite count_app. apply updateCartCount_no_post.
  - destruct (get_prop data "message"); destruct op; reflexivity.
Qed.

(** One invocation of a handler sends at most one POST, whatever the page
    and the answers: nothing is retried. *)
Theorem at_most_one_post (pg : page) (op : operation) :
  (length (filter is_post (effects (run pg op))) <= 1)%nat.
Proof.
  destruct (first_fetch (effects (run pg op))) as [req |] eqn:H.
  - rewrite (run_sent pg op req H), count_app.
    change (Fetch req :: outcome pg op (response_json (server pg req)))
      with ([Fetch req] ++ outcome pg op (response_json (server pg req)))%list.
    rewrite count_app, outcome_no_post.
    assert (Hpre : length (filter is_post (prelude pg op)) = 0%nat).
    { unfold prelude. destruct op; try reflexivity.
      destruct (element_value _); reflexivity. }
    rewrite Hpre. cbn [filter]. destruct (is_post (Fetch req)); simpl; lia.
  - assert (Hnone : forall e, In e (effects (run pg op)) -> is_post e = false).
    { intros [] Hin; try reflexivity.
      destruct (proj1 (first_fetch_none _) H _ Hin). }
    enough (length (filter is_post (effects (run pg op))) = 0%nat) by lia.
    apply emits_only_no_post. exact Hnone.
Qed.

(** ** Validation of the coupon code and of the withdrawal amount *)

(** [applyCoupon] turns away only a missing or empty code, with a warning
    toast and nothing else; any other text, white space included, is posted
    exactly as typed (the code is not trimmed). *)
Theorem applyCoupon_code (pg : page) :
  (element_value (getElementById pg "coupon_code") = None \/
   element_value (getElementById pg "coupon_code") = Some "" ->
   applyCoupon pg =
     ([InsertAlert "alert alert-warning" (JStr "Please enter coupon code");
       SetTimeout RemoveAlert 5000], Ok tt)) /\
  (forall code token,
     element_value (getElementById pg "coupon_code") = Some code ->
     code <> "" ->
     getCookie (document_cookie pg) "csrftoken" = Ok token ->
     first_fetch (effects (applyCoupon pg)) =
     Some {| url := "/orders/apply-coupon/";
             method := "POST";
             headers := [("Content-Type", JStr "application/json");
                         ("X-CSRFToken", token)];
             payload := Some (JsonBody [("code", JStr code)]) |}).
Proof.
  unfold applyCoupon. split.
  - intros [-> | ->]; reflexivity.
  - intros code token -> Hne Hc. destruct code as [| c code']; [now destruct Hne |].
    rewrite Hc, bind_lift_ok. apply first_fetch_fetch_json.
Qed.

Lemma applyCoupon_code_witness :
  let pg := offline_page true "50" in
  element_value (getElementById pg "coupon_code") = Some "   " /\
  "   " <> "" /\
  getCookie (document_cookie pg) "csrftoken" = Ok (JStr "XYZ") /\
  first_fetch (effects (applyCoupon pg)) =
  Some {| url := "/orders/apply-coupon/";
          method := "POST";
          headers := [("Content-Type", JStr "application/json");
                      ("X-CSRFToken", JStr "XYZ")];
          payload := Some (JsonBody [("code", JStr "   ")]) |}.
Proof.
  intro pg.
  assert (H1 : element_value (getElementById pg "coupon_code") = Some "   ")
    by reflexivity.
  assert (H2 : "   " <> "") by discriminate.
  assert (H3 : getCookie (document_cookie pg) "csrftoken" = Ok (JStr "XYZ"))
    by (vm_compute; reflexivity).
  split; [exact H1 |]. split; [exact H2 |]. split; [exact H3 |].
  exact (proj2 (applyCoupon_code pg) "   " (JStr "XYZ") H1 H2 H3).
Defined.

(** [requestWithdrawal] turns away a missing or empty amount and one that
    [parseFloat] reads as zero, negative or minus infinity: it shows the
    warning toast only, without asking for confirmation and without reading
    the cookie or sending anything. *)
Theorem requestWithdrawal_rejects (pg : page) :
  element_value (getElementById pg "withdrawalAmount") = None \/
  (exists amount,
     element_value (getElementById pg "withdrawalAmount") = Some amount /\
     (amount = "" \/ le_zero (parseFloat amount) = true)) ->
  requestWithdrawal pg =
    ([InsertAlert "alert alert-warning" (JStr "Please enter valid amount");
      SetTimeout RemoveAlert 5000], Ok tt).
Proof.
  unfold requestWithdrawal.
  intros [-> | (amount & -> & [-> | Hle])]; try reflexivity.
  destruct amount as [| c amount']; [reflexivity |]. rewrite Hle. reflexivity.
Qed.

Lemma requestWithdrawal_rejects_witness :
  let pg := offline_page true "-5.5" in
  (element_value (getElementById pg "withdrawalAmount") = None \/
   (exists amount,
      element_value (getElementById pg "withdrawalAmount") = Some amount /\
      (amount = "" \/ le_zero (parseFloat amount) = true))) /\
  requestWithdrawal pg =
    ([InsertAlert "alert alert-warning" (JStr "Please enter valid amount");
      SetTimeout RemoveAlert 5000], Ok tt).
Proof.
  intro pg.
  assert (H : element_value (getElementById pg "withdrawalAmount") = None \/
              (exists amount,
                 element_value (getElementById pg "withdrawalAmount") = Some amount
                 /\ (amount = "" \/ le_zero (parseFloat amount) = true))).
  { right. exists "-5.5". split; [reflexivity |]. right. vm_compute. reflexivity. }
  split; [exact H | exact (requestWithdrawal_rejects pg H)].
Defined.

(** An amount that is not a number passes the validation of
    [requestWithdrawal]: [NaN <= 0] is false, so after confirmation the
    handler posts the amount [NaN] (which JSON writes as [null]). *)
Theorem requestWithdrawal_not_a_number (pg : page) (amount : string)
    (token : jsval) :
  element_value (getElementById pg "withdrawalAmount") = Some amount ->
  amount <> "" ->
  parseFloat amount = NaN ->
  confirm pg ("Request withdrawal of â‚¹" ++ amount ++ "?") = true ->
  getCookie (document_cookie pg) "csrftoken" = Ok token ->
  first_fetch (effects (requestWithdrawal pg)) =
  Some {| url := "/affiliate/request-withdrawal/";
          method := "POST";
          headers := [("Content-Type", JStr "application/json");
                      ("X-CSRFToken", token)];
          payload := Some (JsonBody [("amount", JNum NaN)]) |}.
Proof.
  intros Ha Hne Hnan Hconfirm Hc. unfold requestWithdrawal. rewrite Ha.
  destruct amount as [| c amount']; [now destruct Hne |].
  rewrite Hnan. cbv beta iota delta [le_zero].
  rewrite effects_confirm_bind, first_fetch_skip by discriminate.
  rewrite Hconfirm, Hc, bind_lift_ok. apply first_fetch_fetch_json.
Qed.

Lemma requestWithdrawal_not_a_number_witness :
  let pg := offline_page true "abc" in
  element_value (getElementById pg "withdrawalAmount") = Some "abc" /\
  "abc" <> "" /\
  parseFloat "abc" = NaN /\
  confirm pg ("Request withdrawal of â‚¹" ++ "abc" ++ "?") = true /\
  getCookie (document_cookie pg) "csrftoken" = Ok (JStr "XYZ") /\
  first_fetch (effects (requestWithdrawal pg)) =
  Some {| url := "/affiliate/request-withdrawal/";
          method := "POST";
          headers := [("Content-Type", JStr "application/json");
                      ("X-CSRFToken", JStr "XYZ")];
          payload := Some (JsonBody [("amount", JNum NaN)]) |}.
Proof.
  intro pg.
  assert (H1 : element_value (getElementById pg "withdrawalAmount") = Some "abc")
    by reflexivity.
  assert (H2 : "abc" <> "") by discriminate.
  assert (H3 : parseFloat "abc" = NaN) by (vm_compute; reflexivity).
  assert (H4 : confirm pg ("Request withdrawal of â‚¹" ++ "abc" ++ "?") = true)
    by reflexivity.
  assert (H5 : getCookie (document_cookie pg) "csrftoken" = Ok (JStr "XYZ"))
    by (vm_compute; reflexivity).
  repeat (split; [assumption |]).
  exact (requestWithdrawal_not_a_number pg "abc" (JStr "XYZ") H1 H2 H3 H4 H5).
Defined.

(** ** Badge refresh *)



(** A badge refresh never reports to the user and never navigates: whatever
    the registry, the network and the page, its effects are at most one GET
    without headers or body, one write to its badge and one console line. *)
Theorem badge_refresh_is_silent (pg : page) (e : effect) :
  In e (effects (updateCartCount pg)) \/ In e (effects (updateWishlistCount pg)) ->
  match e with
  | Fetch req => exists u, req = get_request u
  | SetTextContent _ _ | ConsoleLog _ => True
  | _ => False
  end.
Proof.
  set (P := fun e => match e with
                     | Fetch req => exists u, req = get_request u
                     | SetTextContent _ _ | ConsoleLog _ => True
                     | _ => False
                     end).
  assert (Hemit : forall e, P e -> emits_only P (emit e))
    by (intros; now apply emits_only_emit).
  assert (H1 : emits_only P (updateCartCount pg)).
  { unfold updateCartCount.
    destruct (URLS pg) as [urls |]; [| apply Hemit; exact I].
    destruct (cartCount urls) as [[| c u'] |]; try (apply Hemit; exact I).
    apply emits_only_bind; [apply Hemit; eexists; reflexivity |].
    intros _. apply emits_only_then_catch; [| apply Hemit; exact I].
    intros data. destruct (getElementById pg "cartCount");
      [| apply emits_only_ret].
    apply emits_only_bind; [apply emits_only_lift |].
    intros count. apply Hemit. exact I. }
  assert (H2 : emits_only P (updateWishlistCount pg)).
  { unfold updateWishlistCount.
    destruct (URLS pg) as [urls |]; [| apply Hemit; exact I].
    destruct (wishlistCount urls) as [[| c u'] |]; try (apply Hemit; exact I).
    apply emits_only_bind; [apply Hemit; eexists; reflexivity |].
    intros _. apply emits_only_then_catch; [| apply Hemit; exact I].
    intros data. destruct (getElementById pg "wishlistCount");
      [| apply emits_only_ret].
    apply emits_only_bind; [apply emits_only_lift |].
    intros count. apply Hemit. exact I. }
  intros [H | H]; [exact (H1 e H) | exact (H2 e H)].
Qed.

Lemma badge_refresh_is_silent_witness :
  In (Fetch (get_request "/products/wishlist-count/"))
     (effects (updateWishlistCount badge_page)) /\
  exists u, get_request "/products/wishlist-count/" = get_request u.
Proof.
  assert (H : In (Fetch (get_request "/products/wishlist-count/"))
                 (effects (updateWishlistCount badge_page)))
    by (vm_compute; left; reflexivity).
  split; [exact H |].
  exact (badge_refresh_is_silent badge_page _ (or_intror H)).
Defined.

Example badge_page_refresh :
  effects (updateCartCount badge_page) =
    [Fetch (get_request "/orders/cart-count/");
     SetTextContent "cartCount" (JNum (of_Z 4))] /\
  effects (updateWishlistCount badge_page) =
    [Fetch (get_request "/products/wishlist-count/");
     ConsoleLog "Wishlist count error:"].
Proof. vm_compute. auto. Qed.

(** ** The currency formatter *)

Module FormatFacts.

Import StrFacts.

Lemma is_digit_word (c : ascii) : is_digit c = true -> is_word c = true.
Proof. unfold is_word. intros ->. now rewrite orb_true_r. Qed.

Lemma all_digits_app (a b : string) :
  all_digits (a ++ b) = all_digits a && all_digits b.
Proof.
  induction a as [| c a IH]; simpl; [reflexivity |].
  now rewrite IH, andb_assoc.
Qed.

Lemma all_digits_zeros (n : nat) : all_digits (zeros n) = true.
Proof. induction n as [| n IH]; [reflexivity | exact IH]. Qed.

Lemma length_zeros (n : nat) : String.length (zeros n) = n.
Proof. induction n as [| n IH]; simpl; [reflexivity | now rewrite IH]. Qed.

Lemma length_drop (n : nat) (s : string) :
  String.length (Str.drop n s) = (String.length s - n)%nat.
Proof.
  revert s. induction n as [| n IH]; intros [| c s]; simpl; try reflexivity.
  apply IH.
Qed.

Lemma all_digits_uint (d : Decimal.uint) :
  all_digits (NilEmpty.string_of_uint d) = true.
Proof. induction d; simpl; trivial. Qed.

Lemma uint_nonempty (d : Decimal.uint) :
  d <> Decimal.Nil -> nonempty (NilEmpty.string_of_uint d) = true.
Proof. destruct d; simpl; trivial. intro H. now destruct H. Qed.

(** The decimal digits of a natural number are digits, and there is at
    least one. *)
Lemma int_to_string_digits (k : Z) :
  (0 <= k)%Z ->
  all_digits (int_to_string k) = true /\ nonempty (int_to_string k) = true.
Proof.
  intro Hk. unfold int_to_string. destruct k as [| p | p]; [now split | | lia].
  simpl. destruct (Pos.to_uint p) eqn:E; simpl; try now split.
  all: split; try reflexivity; apply all_digits_uint.
Qed.

Lemma digits_value_fold (s : string) :
  digits_value 10 s = fold_left digit_step (list_ascii_of_string s) 0%Z.
Proof. reflexivity. Qed.

Lemma fold_uint_acc (d : Decimal.uint) (acc : positive) :
  fold_left digit_step (list_ascii_of_string (NilEmpty.string_of_uint d))
            (Z.pos acc)
  = Z.pos (Pos.of_uint_acc d acc).
Proof.
  revert acc. induction d; intro acc;
    cbn [NilEmpty.string_of_uint list_ascii_of_string fold_left Pos.of_uint_acc];
    trivial;
    rewrite <- IHd; f_equal; unfold digit_step;
    match goal with
    | |- context [digit_val 10 ?c] =>
        let v := eval vm_compute in (digit_val 10 c) in
        change (digit_val 10 c) with v
    end; cbv beta iota; lia.
Qed.

Lemma fold_uint (d : Decimal.uint) :
  fold_left digit_step (list_ascii_of_string (NilEmpty.string_of_uint d)) 0%Z
  = Z.of_N (Pos.of_uint d).
Proof.
  induction d;
    cbn [NilEmpty.string_of_uint list_ascii_of_string fold_left Pos.of_uint];
    trivial; try exact IHd;
    cbn [Z.of_N]; rewrite <- fold_uint_acc; f_equal.
Qed.

(** Reading the digits of a natural number gives the number back. *)
Lemma digits_value_int_to_string (k : Z) :
  (0 <= k)%Z -> digits_value 10 (int_to_string k) = k.
Proof.
  intro Hk. rewrite digits_value_fold. unfold int_to_string.
  destruct k as [| p | p]; [reflexivity | | lia].
  simpl Z.to_int. cbv beta iota delta [NilZero.string_of_int].
  pose proof (DecimalPos.Unsigned.of_to p) as Hp.
  assert (Hs : NilZero.string_of_uint (Pos.to_uint p)
               = NilEmpty.string_of_uint (Pos.to_uint p)).
  { destruct (Pos.to_uint p); try reflexivity. discriminate Hp. }
  rewrite Hs, fold_uint, Hp. reflexivity.
Qed.

Lemma digits_value_zeros (n : nat) (s : string) :
  digits_value 10 (zeros n ++ s) = digits_value 10 s.
Proof.
  rewrite !digits_value_fold.
  induction n as [| n IH]; [reflexivity | exact IH].
Qed.

Lemma take_while_digits (ds tail : string) :
  all_digits ds = true ->
  fst (take_while is_digit (ds ++ tail))
  = ds ++ fst (take_while is_digit tail).
Proof.
  induction ds as [| c ds IH]; simpl; intro H; [reflexivity |].
  apply andb_prop in H as [Hc Hds]. rewrite Hc.
  specialize (IH Hds). destruct (take_while is_digit (ds ++ tail)).
  simpl in IH |- *. now rewrite IH.
Qed.

Lemma digit_run_digits (ds tail : string) :
  all_digits ds = true -> digit_run tail = 0%nat ->
  digit_run (ds ++ tail) = String.length ds.
Proof.
  intros Hds Htail. unfold digit_run in *.
  rewrite take_while_digits, length_append, Htail by exact Hds. lia.
Qed.

(** After a word character, a run of digits that ends where [tail] begins
    is grouped in threes counted from its end. *)
Lemma group_from_digits (ds tail : string) (p : ascii) :
  is_word p = true ->
  all_digits ds = true ->
  digit_run tail = 0%nat ->
  (forall prev, group_from prev tail = tail) ->
  group_from (Some p) (ds ++ tail) = grouped_rest ds ++ tail.
Proof.
  intros Hp Hds Hrun Htail. revert p Hp.
  induction ds as [| c ds IH]; intros p Hp; [apply Htail |].
  pose proof Hds as Hall. simpl in Hds. apply andb_prop in Hds as [Hc Hds'].
  change (String c ds ++ tail) with (String c (ds ++ tail)).
  cbn [group_from grouped_rest]. cbv beta iota delta [word_before].
  rewrite Hp, (is_digit_word c Hc). cbn [Bool.eqb andb].
  unfold groups_ahead.
  change (String c (ds ++ tail)) with (String c ds ++ tail).
  rewrite (digit_run_digits (String c ds) tail Hall Hrun).
  change (String c ds ++ tail) with (String c (ds ++ tail)).
  rewrite (IH Hds' c (is_digit_word c Hc)).
  cbn [String.length Nat.ltb Nat.leb andb].
  destruct (S (String.length ds) mod 3 =? 0)%nat;
    now rewrite !append_assoc.
Qed.

(** The point and the two decimals are left alone. *)
Lemma group_from_decimals (d1 d2 : ascii) (prev : option ascii) :
  is_digit d1 = true -> is_digit d2 = true ->
  group_from prev (String "." (String d1 (String d2 "")))
  = String "." (String d1 (String d2 "")).
Proof.
  intros H1 H2. cbn [group_from]. unfold groups_ahead, digit_run.
  cbn [take_while]. rewrite H1, H2.
  change (is_digit ".") with false. cbn.
  rewrite !andb_false_r. reflexivity.
Qed.

(** The regular expression on an optionally signed decimal with two
    decimals: the integer digits are grouped in threes, nothing else
    changes. *)
Lemma group_thousands_decimal (negative : bool) (c : ascii) (ip : string)
    (d1 d2 : ascii) :
  all_digits (String c ip) = true ->
  is_digit d1 = true -> is_digit d2 = true ->
  group_thousands ((if negative then "-" else "")
                   ++ String c ip ++ String "." (String d1 (String d2 "")))
  = (if negative then "-" else "")
    ++ grouped (String c ip) ++ String "." (String d1 (String d2 "")).
Proof.
  intros Hip H1 H2.
  pose proof Hip as Hall. simpl in Hip. apply andb_prop in Hip as [Hc Hds].
  assert (Hrun : digit_run (String "." (String d1 (String d2 ""))) = 0%nat)
    by reflexivity.
  assert (Hfirst : forall prev,
             word_before prev = false ->
             group_from prev
               (String c ip ++ String "." (String d1 (String d2 "")))
             = grouped (String c ip) ++ String "." (String d1 (String d2 ""))).
  { intros prev Hprev.
    change (String c ip ++ String "." (String d1 (String d2 "")))
      with (String c (ip ++ String "." (String d1 (String d2 "")))).
    cbn [group_from grouped]. rewrite Hprev, (is_digit_word c Hc).
    cbn [Bool.eqb andb append].
    rewrite (group_from_digits ip _ c (is_digit_word c Hc) Hds Hrun);
      [reflexivity |].
    intro prev'. apply group_from_decimals; assumption. }
  unfold group_thousands. destruct negative.
  - change ("-" ++ String c ip ++ String "." (String d1 (String d2 "")))
      with (String "-" (String c ip ++ String "." (String d1 (String d2 "")))).
    cbn [group_from]. unfold groups_ahead, digit_run. cbn [take_while].
    change (is_digit "-") with false. cbn [fst String.length Nat.ltb Nat.leb andb].
    rewrite andb_false_r. cbn [append].
    rewrite Hfirst by reflexivity. reflexivity.
  - cbn [append]. apply Hfirst. reflexivity.
Qed.

End FormatFacts.

(** For every finite amount below 10^21 in magnitude, [formatCurrency]
    gives the glyph, a minus sign for a negative amount, the integer digits
    grouped in threes from the right, a point and exactly two decimals; read
    as one number, the digits are the amount's magnitude times 100 rounded
    to the nearest integer, halves upwards. *)
Theorem formatCurrency_finite (q : Q) :
  let negative := negb (Qle_bool 0 q) in
  let x := (if negative then - q else q)%Q in
  Qle_bool (Qpower 10 21) x = false ->
  exists ip fp : string,
    formatCurrency (Fin q)
      = Some ("₹" ++ (if negative then "-" else "") ++ grouped ip ++ "." ++ fp) /\
    nonempty ip = true /\
    all_digits ip = true /\
    all_digits fp = true /\
    String.length fp = 2%nat /\
    digits_value 10 (ip ++ fp) = Qfloor (x * 100 + (1 # 2))%Q.
Proof.
  intros negative x Hsmall.
  set (k := Qfloor (x * 100 + (1 # 2))%Q).
  assert (Hx : (0 <= x)%Q).
  { unfold x, negative. destruct (Qle_bool 0 q) eqn:E; simpl.
    - apply Qle_bool_iff, E.
    - assert (Hlt : ~ (0 <= q)%Q) by (rewrite <- Qle_bool_iff, E; discriminate).
      apply Qnot_le_lt in Hlt. apply Qlt_le_weak.
      apply (Qopp_lt_compat q 0) in Hlt. exact Hlt. }
  assert (Hk : (0 <= k)%Z).
  { unfold k. change 0%Z with (Qfloor 0). apply Qfloor_resp_le.
    apply Qle_trans with (y := (x * 100)%Q).
    - apply Qmult_le_0_compat; [exact Hx | discriminate].
    - rewrite <- (Qplus_0_r (x * 100)) at 1.
      apply Qplus_le_r. discriminate. }
  destruct (FormatFacts.int_to_string_digits k Hk) as [Hdigits Hnonempty].
  set (digits := int_to_string k) in *.
  set (padded := zeros (3 - String.length digits) ++ digits).
  set (cut := (String.length padded - 2)%nat).
  set (ip := String.substring 0 cut padded).
  set (fp := Str.drop cut padded).
  assert (Hlen : (3 <= String.length padded)%nat).
  { unfold padded. rewrite StrFacts.length_append, FormatFacts.length_zeros. lia. }
  assert (Hsplit : padded = ip ++ fp) by apply StrFacts.take_drop.
  assert (Hfp : String.length fp = 2%nat).
  { unfold fp. rewrite FormatFacts.length_drop. unfold cut. lia. }
  assert (Hall : all_digits ip = true /\ all_digits fp = true).
  { apply andb_prop. rewrite <- FormatFacts.all_digits_app, <- Hsplit.
    unfold padded. rewrite FormatFacts.all_digits_app, Hdigits.
    now rewrite FormatFacts.all_digits_zeros. }
  destruct Hall as [Hip Hfpd].
  assert (Hipn : nonempty ip = true).
  { apply (f_equal String.length) in Hsplit.
    rewrite StrFacts.length_append, Hfp in Hsplit.
    destruct ip; [simpl in Hsplit; lia | reflexivity]. }
  exists ip, fp. repeat split; try assumption.
  - unfold formatCurrency, toFixed2. fold negative. fold x. rewrite Hsmall.
    fold k. fold digits. fold padded. fold cut. fold ip. fold fp.
    cbn [option_map]. f_equal. f_equal.
    destruct ip as [| c ip']; [discriminate Hipn |].
    destruct fp as [| d1 [| d2 [| ? ?]]]; try discriminate Hfp.
    simpl in Hfpd. apply andb_prop in Hfpd as [H1 H2].
    apply andb_prop in H2 as [H2 _].
    exact (FormatFacts.group_thousands_decimal negative c ip' d1 d2 Hip H1 H2).
  - rewrite <- Hsplit. unfold padded.
    rewrite FormatFacts.digits_value_zeros.
    apply FormatFacts.digits_value_int_to_string, Hk.
Qed.

Lemma formatCurrency_finite_witness :
  Qle_bool (Qpower 10 21) (2469135 # 2) = false /\
  exists ip fp : string,
    formatCurrency (Fin (2469135 # 2))
      = Some ("₹" ++ "" ++ grouped ip ++ "." ++ fp) /\
    nonempty ip = true /\
    all_digits ip = true /\
    all_digits fp = true /\
    String.length fp = 2%nat /\
    digits_value 10 (ip ++ fp) = 123456750%Z.
Proof.
  assert (H : Qle_bool (Qpower 10 21) (2469135 # 2) = false)
    by (vm_compute; reflexivity).
  split; [exact H | exact (formatCurrency_finite (2469135 # 2) H)].
Defined.

(** From 10^21 on, and only there, the model gives no result for a finite
    amount ([toFixed] switches to exponent notation); not-a-number and the
    infinities are printed by name after the glyph. *)
Example formatCurrency_special :
  formatCurrency NaN = Some "₹NaN" /\
  formatCurrency (Inf false) = Some "₹Infinity" /\
  formatCurrency (Inf true) = Some "₹-Infinity".
Proof. vm_compute. auto. Qed.

(** ** More on the cookie reader *)

Module CookieFacts.

Import StrFacts.

Lemma lacks_app (c : ascii) (a b : string) :
  lacks c (a ++ b) = lacks c a && lacks c b.
Proof.
  induction a as [| x a IH]; simpl; [reflexivity |].
  now rewrite IH, andb_assoc.
Qed.

Lemma split_lacks (sep : ascii) (s : string) :
  lacks sep s = true -> Str.split sep s = [s].
Proof.
  induction s as [| c s IH]; simpl; intro H; [reflexivity |].
  apply andb_prop in H as [Hc Hs].
  destruct (Ascii.eqb c sep); [discriminate Hc |].
  now rewrite (IH Hs).
Qed.

Lemma split_first (sep : ascii) (p rest : string) :
  lacks sep p = true ->
  Str.split sep (p ++ String sep rest) = p :: Str.split sep rest.
Proof.
  induction p as [| c p IH]; simpl; intro H.
  - now rewrite Ascii.eqb_refl.
  - apply andb_prop in H as [Hc Hp].
    destruct (Ascii.eqb c sep); [discriminate Hc |].
    now rewrite (IH Hp).
Qed.

(** The test of the reader, [cookie.substring(0, name.length + 1) === name +
    '='], is the prefix test. *)
Lemma substring_test (name cookie : string) :
  String.eqb (String.substring 0 (String.length name + 1) cookie) (name ++ "=")
  = Str.prefixb (name ++ "=") cookie.
Proof.
  replace (String.length name + 1)%nat with (String.length (name ++ "="))
    by (rewrite length_append; reflexivity).
  generalize (name ++ "="). intro p. revert cookie.
  induction p as [| a p IH]; intro cookie.
  - destruct cookie; reflexivity.
  - destruct cookie as [| b cookie]; [reflexivity |].
    simpl. rewrite <- IH. rewrite (Ascii.eqb_sym a b).
    destruct (Ascii.eqb b a); reflexivity.
Qed.

End CookieFacts.

(** What the reader returns comes from the string: a string result is the
    decoded value of a cookie of that name, the first one in the string, and
    every piece before it, trimmed, does not begin with [name=]. *)
Theorem getCookie_sound (cookie name v : string) :
  getCookie cookie name = Ok (JStr v) ->
  exists before piece after raw,
    Str.split ";" cookie = (before ++ piece :: after)%list /\
    Forall (fun p => names_cookie name p = false) before /\
    trim piece = name ++ "=" ++ raw /\
    decodeURIComponent raw = Ok v.
Proof.
  unfold getCookie. destruct (nonempty cookie); [| discriminate].
  induction (Str.split ";" cookie) as [| c rest IH]; [discriminate |].
  simpl. rewrite CookieFacts.substring_test.
  destruct (Str.prefixb (name ++ "=") (trim c)) eqn:E.
  - destruct (decodeURIComponent _) as [w | x] eqn:Hd; [| discriminate].
    intros [= <-]. exists [], c, rest, (Str.drop (String.length name + 1) (trim c)).
    repeat split; [constructor | | exact Hd].
    rewrite (StrFacts.prefixb_app _ _ E) at 1.
    rewrite StrFacts.append_assoc, StrFacts.length_append. reflexivity.
  - intro H. destruct (IH H) as (before & piece & after & raw & Hs & Hb & Ht & Hd).
    exists (c :: before), piece, after, raw.
    repeat split; try assumption.
    + simpl. now rewrite Hs.
    + constructor; [exact E | exact Hb].
Qed.

Lemma getCookie_sound_witness :
  getCookie "a=1; csrftoken=X%20Z; csrftoken=other" "csrftoken" = Ok (JStr "X Z") /\
  exists before piece after raw,
    Str.split ";" "a=1; csrftoken=X%20Z; csrftoken=other"
      = (before ++ piece :: after)%list /\
    Forall (fun p => names_cookie "csrftoken" p = false) before /\
    trim piece = "csrftoken" ++ "=" ++ raw /\
    decodeURIComponent raw = Ok "X Z".
Proof.
  assert (H : getCookie "a=1; csrftoken=X%20Z; csrftoken=other" "csrftoken"
              = Ok (JStr "X Z")) by (vm_compute; reflexivity).
  split; [exact H | exact (getCookie_sound _ _ _ H)].
Defined.

(** Once the first cookie of the string bears the name, nothing after it is
    looked at: the result is the same whatever follows, another cookie of
    the same name or a malformed one included. *)
Theorem getCookie_first_wins (first rest rest' name : string) :
  lacks ";" first = true ->
  names_cookie name first = true ->
  getCookie (first ++ ";" ++ rest) name = getCookie (first ++ ";" ++ rest') name.
Proof.
  intros Hfirst Hname.
  assert (H : forall r, getCookie (first ++ ";" ++ r) name
                        = match decodeURIComponent
                                  (Str.drop (String.length name + 1) (trim first)) with
                          | Ok v => Ok (JStr v)
                          | Throw e => Throw e
                          end).
  { intro r. unfold getCookie.
    assert (Hne : nonempty (first ++ ";" ++ r) = true) by (destruct first; reflexivity).
    rewrite Hne.
    change (first ++ ";" ++ r) with (first ++ String ";" r).
    rewrite (CookieFacts.split_first ";" first r Hfirst).
    simpl. rewrite CookieFacts.substring_test.
    unfold names_cookie in Hname. rewrite Hname. reflexivity. }
  now rewrite !H.
Qed.

Lemma getCookie_first_wins_witness :
  lacks ";" "csrftoken=abc" = true /\
  names_cookie "csrftoken" "csrftoken=abc" = true /\
  getCookie ("csrftoken=abc" ++ ";" ++ " csrftoken=%") "csrftoken"
  = getCookie ("csrftoken=abc" ++ ";" ++ "") "csrftoken".
Proof.
  assert (H1 : lacks ";" "csrftoken=abc" = true) by reflexivity.
  assert (H2 : names_cookie "csrftoken" "csrftoken=abc" = true)
    by (vm_compute; reflexivity).
  split; [exact H1 |]. split; [exact H2 |].
  exact (getCookie_first_wins "csrftoken=abc" " csrftoken=%" "" "csrftoken" H1 H2).
Defined.

(** ** The search URL *)

Module SearchFacts.

Import StrFacts.

Lemma uri_piece_lacks (c : ascii) :
  let piece := if uri_unreserved c then String c "" else percent c in
  lacks "&" piece = true /\ lacks "=" piece = true /\ lacks "+" piece = true.
Proof. destruct c as [[] [] [] [] [] [] [] []]; repeat split; reflexivity. Qed.

(** Escaped text has no [&], no [=] and no [+]. *)
Lemma uri_escape_lacks (s : string) :
  lacks "&" (uri_escape s) = true /\
  lacks "=" (uri_escape s) = true /\
  lacks "+" (uri_escape s) = true.
Proof.
  induction s as [| c s (IH1 & IH2 & IH3)]; simpl; [now repeat split |].
  destruct (uri_piece_lacks c) as (H1 & H2 & H3).
  rewrite !CookieFacts.lacks_app, H1, H2, H3, IH1, IH2, IH3. now repeat split.
Qed.

Lemma plus_to_space_lacks (s : string) :
  lacks "+" s = true -> plus_to_space s = s.
Proof.
  induction s as [| c s IH]; simpl; intro H; [reflexivity |].
  apply andb_prop in H as [Hc Hs].
  destruct (Ascii.eqb c "+"); [discriminate Hc |]. now rewrite (IH Hs).
Qed.

Lemma break_at_lacks (a b : string) :
  lacks "=" a = true -> break_at "=" (a ++ String "=" b) = (a, b).
Proof.
  induction a as [| c a IH]; simpl; intro H; [reflexivity |].
  apply andb_prop in H as [Hc Ha].
  destruct (Ascii.eqb c "="); [discriminate Hc |]. now rewrite (IH Ha).
Qed.

(** A one-parameter query string written with [encodeURIComponent] reads
    back as that parameter. *)
Lemma parse_query_encoded (key v encoded : string) :
  nonempty key = true ->
  lacks "&" key = true -> lacks "=" key = true ->
  form_decode key = key ->
  encodeURIComponent v = Ok encoded ->
  parse_query (key ++ "=" ++ encoded) = [(key, v)].
Proof.
  intros Hne Hamp Heq Hdec Henc.
  unfold encodeURIComponent in Henc.
  destruct (isWellFormed v); [| discriminate Henc].
  injection Henc as <-.
  destruct (uri_escape_lacks v) as (H1 & H2 & H3).
  unfold parse_query.
  rewrite CookieFacts.split_lacks
    by (rewrite !CookieFacts.lacks_app, Hamp, H1; reflexivity).
  assert (Hn : nonempty (key ++ "=" ++ uri_escape v) = true)
    by (destruct key; [discriminate Hne | reflexivity]).
  cbn [filter]. rewrite Hn. cbn [map]. unfold parse_pair.
  change (key ++ "=" ++ uri_escape v)
    with (key ++ String "=" (uri_escape v)).
  rewrite (break_at_lacks key _ Heq), Hdec.
  unfold form_decode at 1. rewrite (plus_to_space_lacks _ H3).
  now rewrite QueryFacts.percent_decode_uri_escape.
Qed.

(** [encodeURIComponent] returns on well-formed text and only there. *)
Lemma encodeURIComponent_returns (s : string) :
  isWellFormed s = true -> encodeURIComponent s = Ok (uri_escape s).
Proof. intro H. unfold encodeURIComponent. now rewrite H. Qed.

Lemma encodeURIComponent_throws (s : string) :
  isWellFormed s = false -> encodeURIComponent s = Throw URIError.
Proof. intro H. unfold encodeURIComponent. now rewrite H. Qed.

End SearchFacts.

Lemma searchProducts_blank (query : string) :
  blank query ->
  searchProducts query = showMessage (JStr "Please enter search term") "warning".
Proof.
  intro Hb. unfold searchProducts.
  rewrite (TrimFacts.blank_trim_empty _ Hb). now rewrite orb_true_r.
Qed.

Lemma searchProducts_nonblank (query : string) :
  ~ blank query ->
  searchProducts query
  = (encoded <- lift (encodeURIComponent query) ;;
     emit (SetHref ("/products/search/?q=" ++ encoded))).
Proof.
  intro Hnb. unfold searchProducts.
  now rewrite (searchProducts_guard query Hnb).
Qed.

(** What becomes of a search term that is not blank. *)
Lemma searchProducts_term (query : string) :
  ~ blank query ->
  (isWellFormed query = true ->
   exists search,
     searchProducts query = ([SetHref ("/products/search/?" ++ search)], Ok tt) /\
     parse_query search = [("q", query)]) /\
  (isWellFormed query = false ->
   searchProducts query = ([], Throw URIError)).
Proof.
  intro Hnb. rewrite (searchProducts_nonblank query Hnb). split; intro Hwf.
  - exists ("q=" ++ uri_escape query).
    rewrite (SearchFacts.encodeURIComponent_returns query Hwf).
    split; [reflexivity |].
    apply (SearchFacts.parse_query_encoded "q" query); try reflexivity.
    apply SearchFacts.encodeURIComponent_returns, Hwf.
  - now rewrite (SearchFacts.encodeURIComponent_throws query Hwf).
Qed.

(** The URL [searchProducts] navigates to carries the query, whatever
    characters it contains, as the single parameter [q]: for a query that is
    not blank and in which no surrogate code unit is without partner, the
    search string reads back as [q] bound to the query and nothing else.  A
    query that is not blank and holds a surrogate without partner makes
    [encodeURIComponent] throw: nothing is navigated to and nothing shown. *)
Theorem searchProducts_carries_query (query : string) :
  ~ blank query ->
  (isWellFormed query = true ->
   exists search,
     searchProducts query = ([SetHref ("/products/search/?" ++ search)], Ok tt) /\
     parse_query search = [("q", query)]) /\
  (isWellFormed query = false ->
   searchProducts query = ([], Throw URIError)).
Proof. exact (searchProducts_term query). Qed.

Lemma searchProducts_carries_query_witness :
  (~ blank "a&b=c d+e" /\
   exists search,
     searchProducts "a&b=c d+e"
       = ([SetHref ("/products/search/?" ++ search)], Ok tt) /\
     parse_query search = [("q", "a&b=c d+e")]) /\
  (~ blank cut_emoji /\
   searchProducts cut_emoji = ([], Throw URIError)).
Proof.
  assert (H : ~ blank "a&b=c d+e").
  { intro H. apply TrimFacts.blank_trim_empty in H. vm_compute in H.
    discriminate H. }
  assert (H' : ~ blank cut_emoji).
  { intro H'. apply TrimFacts.blank_trim_empty in H'. vm_compute in H'.
    discriminate H'. }
  split.
  - split; [exact H |].
    exact (proj1 (searchProducts_carries_query "a&b=c d+e" H) eq_refl).
  - split; [exact H' |].
    exact (proj2 (searchProducts_carries_query cut_emoji H') eq_refl).
Defined.

(** ** Search suggestions *)

Lemma occurs_concat (x : string) (l : list string) :
  In x l -> Str.occurs x (String.concat "" l).
Proof.
  induction l as [| y l IH]; [intros [] |].
  intros [-> | H].
  - destruct l as [| z l]; [apply StrFacts.occurs_refl |].
    change (String.concat "" (x :: z :: l))
      with (x ++ "" ++ String.concat "" (z :: l)).
    apply StrFacts.occurs_app_l.
  - destruct l as [| z l]; [destruct H |].
    change (String.concat "" (y :: z :: l))
      with (y ++ "" ++ String.concat "" (z :: l)).
    eapply StrFacts.occurs_trans; [exact (IH H) |].
    apply StrFacts.occurs_app_r.
Qed.

(** Typing into the search field.  With fewer than two UTF-16 code units in
    the field nothing happens at all.  From two on, for a text in which no
    surrogate code unit is without partner, the listener sends one GET to
    the suggestions endpoint whose search string reads back as [q] bound to
    the text typed, and whatever the answer, nothing reaches the user but
    the suggestions box: the only other effect there can be is one console
    line.  On a text of two units or more that holds a surrogate without
    partner [encodeURIComponent] throws: the listener ends with [URIError],
    nothing is sent and the box is as it was. *)
Theorem autoComplete_request (to_string : jsval -> string) (pg : page)
    (query : string) (st : option box) :
  ((utf16_length query < 2)%nat ->
   autoComplete to_string pg query st = ([], st, Ok tt)) /\
  ((2 <= utf16_length query)%nat -> isWellFormed query = true ->
   exists search log st',
     autoComplete to_string pg query st
       = (Fetch (get_request ("/products/search-suggestions/?" ++ search)) :: log,
          st', Ok tt) /\
     parse_query search = [("q", query)] /\
     (log = [] \/ log = [ConsoleLog "Search error:"])) /\
  ((2 <= utf16_length query)%nat -> isWellFormed query = false ->
   autoComplete to_string pg query st = ([], st, Throw URIError)).
Proof.
  unfold autoComplete. split; [| split].
  - intro Hlen. apply Nat.ltb_lt in Hlen. now rewrite Hlen.
  - intros Hlen Hwf.
    assert (Hge : (utf16_length query <? 2)%nat = false) by (apply Nat.ltb_ge, Hlen).
    rewrite Hge, (SearchFacts.encodeURIComponent_returns query Hwf).
    exists ("q=" ++ uri_escape query).
    set (req := get_request _).
    assert (Hq : parse_query ("q=" ++ uri_escape query) = [("q", query)]).
    { apply (SearchFacts.parse_query_encoded "q" query); try reflexivity.
      apply SearchFacts.encodeURIComponent_returns, Hwf. }
    destruct (response_json (server pg req)) as [data |];
      [| do 2 eexists; split; [reflexivity | split; [exact Hq | now right]]].
    destruct (get_prop data "suggestions") as [suggestions | x];
      [| do 2 eexists; split; [reflexivity | split; [exact Hq | now right]]].
    destruct (showSuggestions to_string suggestions st) as [st' [u | x]];
      do 2 eexists; (split; [reflexivity | split; [exact Hq |]]);
      [now left | now right].
  - intros Hlen Hwf.
    assert (Hge : (utf16_length query <? 2)%nat = false) by (apply Nat.ltb_ge, Hlen).
    now rewrite Hge, (SearchFacts.encodeURIComponent_throws query Hwf).
Qed.

Lemma autoComplete_request_witness :
  let pg := suggesting_page
              (Http true (Some (JObj [("suggestions", JArr [JStr "rose oil"])]))) in
  ((2 <= utf16_length "ro")%nat /\
   exists search log st',
     autoComplete text_of pg "ro" None
       = (Fetch (get_request ("/products/search-suggestions/?" ++ search)) :: log,
          st', Ok tt) /\
     parse_query search = [("q", "ro")] /\
     (log = [] \/ log = [ConsoleLog "Search error:"])) /\
  ((2 <= utf16_length cut_emoji)%nat /\
   autoComplete text_of pg cut_emoji None = ([], None, Throw URIError)).
Proof.
  intro pg.
  assert (H : (2 <= utf16_length "ro")%nat) by (vm_compute; lia).
  assert (H' : (2 <= utf16_length cut_emoji)%nat) by (vm_compute; lia).
  split.
  - split; [exact H |].
    exact (proj1 (proj2 (autoComplete_request text_of pg "ro" None)) H eq_refl).
  - split; [exact H' |].
    exact (proj2 (proj2 (autoComplete_request text_of pg cut_emoji None))
             H' eq_refl).
Defined.

(** Suggestion failures.  Once the request is sent, a rejected request or a
    body that is not JSON leaves the page as it was; a JSON answer without
    [suggestions] also only logs, but by then the box has been created if
    the page had none. *)
Theorem autoComplete_failure (to_string : jsval -> string) (pg : page)
    (query encoded : string) (st : option box) :
  (2 <= utf16_length query)%nat ->
  encodeURIComponent query = Ok encoded ->
  let req :=
    get_request ("/products/search-suggestions/?q=" ++ encoded) in
  (response_json (server pg req) = None ->
   autoComplete to_string pg query st
     = ([Fetch req; ConsoleLog "Search error:"], st, Ok tt)) /\
  (forall data,
     response_json (server pg req) = Some data ->
     get_prop data "suggestions" = Ok JUndefined ->
     autoComplete to_string pg query st
       = ([Fetch req; ConsoleLog "Search error:"],
          Some match st with Some container => container | None => new_box end,
          Ok tt)).
Proof.
  intros Hlen Henc req. unfold autoComplete. rewrite Henc. fold req.
  assert (Hge : (utf16_length query <? 2)%nat = false) by (apply Nat.ltb_ge, Hlen).
  rewrite Hge. split.
  - intros ->. reflexivity.
  - intros data -> ->. reflexivity.
Qed.

Lemma autoComplete_failure_witness :
  let pg := suggesting_page (Http true (Some (JObj []))) in
  let req := get_request ("/products/search-suggestions/?q=" ++ "ro") in
  (2 <= utf16_length "ro")%nat /\
  encodeURIComponent "ro" = Ok "ro" /\
  autoComplete text_of pg "ro" None
    = ([Fetch req; ConsoleLog "Search error:"], Some new_box, Ok tt).
Proof.
  intros pg req.
  assert (H : (2 <= utf16_length "ro")%nat) by (vm_compute; lia).
  assert (H' : encodeURIComponent "ro" = Ok "ro") by reflexivity.
  split; [exact H |]. split; [exact H' |].
  exact (proj2 (autoComplete_failure text_of pg "ro" "ro" None H H')
           (JObj []) eq_refl eq_refl).
Defined.

(** [showSuggestions] always leaves a box in the page, and doing it again
    with the same suggestions changes nothing more: the box is created once
    and its rows are replaced, never appended. *)
Theorem showSuggestions_idempotent (to_string : jsval -> string)
    (suggestions : jsval) (st : option box) :
  fst (showSuggestions to_string suggestions st) <> None /\
  showSuggestions to_string suggestions
    (fst (showSuggestions to_string suggestions st))
  = showSuggestions to_string suggestions st.
Proof.
  unfold showSuggestions.
  destruct (js_length suggestions) as [len | x]; [| split; [discriminate | reflexivity]].
  destruct (is_zero len); [split; [discriminate | reflexivity] |].
  destruct (suggestion_rows to_string suggestions) as [html | x];
    split; try discriminate; reflexivity.
Qed.

Lemma showSuggestions_shown (to_string : jsval -> string)
    (items : list jsval) (st : option box) :
  items <> [] ->
  showSuggestions to_string (JArr items) st
  = (Some {| display := "block";
             innerHTML := String.concat "" (map (suggestion_row to_string) items) |},
     Ok tt).
Proof.
  intros Hne. destruct items as [| x items]; [now destruct Hne |].
  unfold showSuggestions. cbn [js_length suggestion_rows].
  assert (Hz : is_zero (JNum (of_Z (Z.of_nat (List.length (x :: items))))) = false).
  { unfold is_zero, of_Z, Qeq_bool, inject_Z. cbn [Qnum Qden].
    apply Z.eqb_neq. cbn [List.length]. lia. }
  rewrite Hz. reflexivity.
Qed.

(** An empty list hides the box but keeps the rows it held; a list with
    entries replaces them whatever the box held before and shows it. *)
Theorem showSuggestions_contents (to_string : jsval -> string)
    (items : list jsval) (container : box) :
  showSuggestions to_string (JArr []) (Some container)
    = (Some {| display := "none"; innerHTML := innerHTML container |}, Ok tt) /\
  (items <> [] ->
   forall st,
     showSuggestions to_string (JArr items) st
     = (Some {| display := "block";
                innerHTML := String.concat "" (map (suggestion_row to_string) items) |},
        Ok tt)).
Proof.
  split; [reflexivity |].
  intros Hne st. apply showSuggestions_shown, Hne.
Qed.

Lemma showSuggestions_contents_witness :
  [JStr "rose oil"] <> [] /\
  showSuggestions text_of (JArr [JStr "rose oil"]) None
  = (Some {| display := "block";
             innerHTML := String.concat "" (map (suggestion_row text_of)
                                                [JStr "rose oil"]) |},
     Ok tt).
Proof.
  assert (H : [JStr "rose oil"] <> []) by discriminate.
  split; [exact H |].
  exact (proj2 (showSuggestions_contents text_of [JStr "rose oil"] new_box) H None).
Defined.

(** Suggestions go into the markup as they come: the text of every
    suggestion stands unchanged inside the [onclick] script of its row,
    between the single quotes, with nothing escaped. *)
Theorem showSuggestions_verbatim (to_string : jsval -> string)
    (items : list jsval) (s : string) (st : option box) :
  (forall t, to_string (JStr t) = t) ->
  In (JStr s) items ->
  exists shown,
    fst (showSuggestions to_string (JArr items) st) = Some shown /\
    display shown = "block" /\
    Str.occurs ("onclick=" ++ dquote ++ "selectSuggestion('" ++ s ++ "')" ++ dquote)
               (innerHTML shown).
Proof.
  intros Hid Hin.
  assert (Hne : items <> []) by (intros ->; destruct Hin).
  rewrite (showSuggestions_shown to_string items st Hne).
  eexists. split; [reflexivity |]. split; [reflexivity |].
  cbn [innerHTML].
  eapply StrFacts.occurs_trans;
    [| apply occurs_concat, in_map, Hin].
  unfold suggestion_row. rewrite Hid.
  exists ("<div class=" ++ dquote ++ "suggestion-item" ++ dquote ++ " "),
         (">" ++ s ++ "</div>").
  repeat rewrite StrFacts.append_assoc. reflexivity.
Qed.

Lemma showSuggestions_verbatim_witness :
  (forall t, text_of (JStr t) = t) /\
  In (JStr "x');alert(1);('") [JStr "rose"; JStr "x');alert(1);('"] /\
  exists shown,
    fst (showSuggestions text_of (JArr [JStr "rose"; JStr "x');alert(1);('"]) None)
      = Some shown /\
    display shown = "block" /\
    Str.occurs ("onclick=" ++ dquote ++ "selectSuggestion('" ++ "x');alert(1);('"
                ++ "')" ++ dquote)
               (innerHTML shown).
Proof.
  assert (H1 : forall t, text_of (JStr t) = t) by reflexivity.
  assert (H2 : In (JStr "x');alert(1);('") [JStr "rose"; JStr "x');alert(1);('"])
    by (right; left; reflexivity).
  split; [exact H1 |]. split; [exact H2 |].
  exact (showSuggestions_verbatim text_of _ _ None H1 H2).
Defined.

(** Choosing a suggestion puts its text into the search field and then
    searches for exactly that text: the URL navigated to carries it as [q].
    A blank suggestion fills the field and gets the warning toast instead; a
    suggestion that is not blank and holds a surrogate code unit without
    partner fills the field and then throws [URIError] from
    [encodeURIComponent], without navigation or toast; on a page without a
    search field the handler throws before it searches. *)
Theorem selectSuggestion_searches (term : string) :
  selectSuggestion term None = (None, ([], Throw TypeError)) /\
  forall old : string,
    (blank term ->
     selectSuggestion term (Some old)
     = (Some term,
        ([InsertAlert "alert alert-warning" (JStr "Please enter search term");
          SetTimeout RemoveAlert 5000], Ok tt))) /\
    (~ blank term -> isWellFormed term = true ->
     exists search,
       selectSuggestion term (Some old)
       = (Some term, ([SetHref ("/products/search/?" ++ search)], Ok tt)) /\
       parse_query search = [("q", term)]) /\
    (~ blank term -> isWellFormed term = false ->
     selectSuggestion term (Some old) = (Some term, ([], Throw URIError))).
Proof.
  split; [reflexivity |]. intro old. unfold selectSuggestion. split; [| split].
  - intro Hb. now rewrite (searchProducts_blank term Hb).
  - intros Hnb Hwf.
    destruct (proj1 (searchProducts_term term Hnb) Hwf) as (search & -> & Hq).
    exists search. split; [reflexivity | exact Hq].
  - intros Hnb Hwf. now rewrite (proj2 (searchProducts_term term Hnb) Hwf).
Qed.

Lemma selectSuggestion_searches_witness :
  (~ blank "rose & oil" /\
   exists search,
     selectSuggestion "rose & oil" (Some "ro")
     = (Some "rose & oil", ([SetHref ("/products/search/?" ++ search)], Ok tt)) /\
     parse_query search = [("q", "rose & oil")]) /\
  (~ blank cut_emoji /\
   selectSuggestion cut_emoji (Some "ro") = (Some cut_emoji, ([], Throw URIError))).
Proof.
  assert (H : ~ blank "rose & oil").
  { intro H. apply TrimFacts.blank_trim_empty in H. vm_compute in H.
    discriminate H. }
  assert (H' : ~ blank cut_emoji).
  { intro H'. apply TrimFacts.blank_trim_empty in H'. vm_compute in H'.
    discriminate H'. }
  split.
  - split; [exact H |].
    exact (proj1 (proj2 (proj2 (selectSuggestion_searches "rose & oil") "ro"))
             H eq_refl).
  - split; [exact H' |].
    exact (proj2 (proj2 (proj2 (selectSuggestion_searches cut_emoji) "ro"))
             H' eq_refl).
Defined.

(** ** Filter wiring *)

Lemma dispatch_app (l1 l2 : list listener) (pg : page) (id event : string) :
  dispatch (l1 ++ l2) pg id event
  = (dispatch l1 pg id event ++ dispatch l2 pg id event)%list.
Proof. unfold dispatch. apply flat_map_app. Qed.

(** After the filter script has initialised, a change of a control runs
    [applyFilters] once if the control is the category or the sort select,
    or one of the two price fields while both exist; a price field whose
    partner is missing from the page has no listener, and its change does
    nothing. *)
Theorem filter_change (pg : page) (id : string) :
  dispatch (initFilters pg) pg id "change"
  = if wired pg id then effects (applyFilters pg) else [].
Proof.
  unfold initFilters, wired. rewrite !dispatch_app.
  unfold setPriceRange, setCategoryFilter, setSortFilter.
  destruct (String.eqb_spec id "minPrice") as [-> | Hmin].
  { destruct (getElementById pg "minPrice"), (getElementById pg "maxPrice"),
             (getElementById pg "categoryFilter"), (getElementById pg "sortFilter");
      cbn; rewrite ?app_nil_r; reflexivity. }
  destruct (String.eqb_spec id "maxPrice") as [-> | Hmax].
  { destruct (getElementById pg "minPrice"), (getElementById pg "maxPrice"),
             (getElementById pg "categoryFilter"), (getElementById pg "sortFilter");
      cbn; rewrite ?app_nil_r; reflexivity. }
  destruct (String.eqb_spec id "categoryFilter") as [-> | Hcat].
  { destruct (getElementById pg "minPrice"), (getElementById pg "maxPrice"),
             (getElementById pg "categoryFilter"), (getElementById pg "sortFilter");
      cbn; rewrite ?app_nil_r; reflexivity. }
  destruct (String.eqb_spec id "sortFilter") as [-> | Hsort].
  { destruct (getElementById pg "minPrice"), (getElementById pg "maxPrice"),
             (getElementById pg "categoryFilter"), (getElementById pg "sortFilter");
      cbn; rewrite ?app_nil_r; reflexivity. }
  assert (Hno : forall l, In l [("minPrice", "change"); ("maxPrice", "change");
                              ("categoryFilter", "change"); ("sortFilter", "change")] ->
                          String.eqb (fst l) id = false).
  { intros l [<- | [<- | [<- | [<- | []]]]]; apply String.eqb_neq; cbn [fst];
      congruence. }
  assert (Hnone : forall ls,
             incl ls [("minPrice", "change"); ("maxPrice", "change");
                      ("categoryFilter", "change"); ("sortFilter", "change")] ->
             dispatch ls pg id "change" = []).
  { induction ls as [| l ls IH]; intro Hincl; [reflexivity |].
    unfold dispatch. cbn [flat_map].
    rewrite (Hno l (Hincl l (or_introl eq_refl))). cbn [andb app].
    apply IH. intros x Hx. apply Hincl. now right. }
  rewrite !Hnone.
  - cbn [orb app]. destruct (getElementById pg id); reflexivity.
  - destruct (getElementById pg "sortFilter"); intros x Hx;
      [destruct Hx as [<- | []]; simpl; tauto | destruct Hx].
  - destruct (getElementById pg "categoryFilter"); intros x Hx;
      [destruct Hx as [<- | []]; simpl; tauto | destruct Hx].
  - destruct (getElementById pg "minPrice"), (getElementById pg "maxPrice");
      intros x Hx; try destruct Hx as [<- | [<- | []]]; simpl; tauto.
Qed.

Example filter_change_sample :
  dispatch (initFilters half_priced_page) half_priced_page "minPrice" "change" = [] /\
  dispatch (initFilters half_priced_page) half_priced_page "sortFilter" "change"
  = [SetSearch "min_price=100&sort=price"].
Proof. vm_compute. auto. Qed.

(** ** Copying to the clipboard *)

Lemma repeat_snoc {A} (x : A) (n : nat) :
  (repeat x n ++ [x])%list = x :: repeat x n.
Proof. induction n as [| n IH]; simpl; [reflexivity | now rewrite IH]. Qed.

Lemma clicks_pending (text : string) (copied : bool) (b : banner) (n : nat) :
  pending b = [] ->
  Nat.iter (S n) (copyBannerCode (Some text) copied) b
  = {| label := "Copied!";
       clipboard := if copied then text else clipboard b;
       pending :=
         {| due := 2000; originalText := label b |}
           :: repeat {| due := 2000; originalText := "Copied!" |} n |}.
Proof.
  intro Hp. induction n as [| n IH].
  - simpl. unfold copyBannerCode. now rewrite Hp.
  - change (Nat.iter (S (S n)) (copyBannerCode (Some text) copied) b)
      with (copyBannerCode (Some text) copied
              (Nat.iter (S n) (copyBannerCode (Some text) copied) b)).
    rewrite IH. unfold copyBannerCode. cbn [label clipboard pending].
    f_equal.
    + now destruct copied.
    + cbn [app]. f_equal. apply repeat_snoc.
Qed.

Lemma last_default {A} (p : list A) (a d d' : A) :
  last (a :: p) d = last (a :: p) d'.
Proof.
  revert a. induction p as [| x p IH]; intro a; [reflexivity |].
  exact (IH x).
Qed.

Lemma expire_all (p : list timer) (l c : string) :
  Nat.iter (List.length p) expire {| label := l; clipboard := c; pending := p |}
  = {| label := last (map originalText p) l; clipboard := c; pending := [] |}.
Proof.
  revert l. induction p as [| x p IH]; intro l; [reflexivity |].
  cbn [List.length]. rewrite Nat.iter_succ_r.
  unfold expire at 2. cbn [pending clipboard]. rewrite IH.
  f_equal. destruct p as [| y p]; [reflexivity |].
  exact (last_default (map originalText p) (originalText y) (originalText x) l).
Qed.

(** One click on a banner's copy button turns its label into 'Copied!' and
    sets a timer of 2000 ms: as long as less time than that has gone by the
    label stays 'Copied!', and from 2000 ms on the label is what it was
    before the click and no timer is left; the clipboard holds the banner
    code if the copy command worked and is unchanged if it did not. *)
Theorem copyBannerCode_restores (text : string) (copied : bool) (b : banner)
    (ms : nat) :
  pending b = [] ->
  label (copyBannerCode (Some text) copied b) = "Copied!" /\
  ((ms < 2000)%nat ->
   elapse ms (copyBannerCode (Some text) copied b)
   = {| label := "Copied!";
        clipboard := if copied then text else clipboard b;
        pending := [{| due := 2000 - ms; originalText := label b |}] |}) /\
  ((2000 <= ms)%nat ->
   elapse ms (copyBannerCode (Some text) copied b)
   = {| label := label b;
        clipboard := if copied then text else clipboard b;
        pending := [] |}).
Proof.
  intro Hp. unfold copyBannerCode, elapse. cbn [label clipboard pending].
  rewrite Hp. cbn [app run_timers due originalText].
  split; [reflexivity |]. split; intro Hms.
  - apply Nat.leb_gt in Hms. now rewrite Hms.
  - apply Nat.leb_le in Hms. now rewrite Hms.
Qed.

Lemma copyBannerCode_restores_witness :
  let b := {| label := "Copy code"; clipboard := ""; pending := [] |} in
  (pending b = [] /\ (1999 < 2000)%nat /\
   elapse 1999 (copyBannerCode (Some "<a href=x>") true b)
   = {| label := "Copied!"; clipboard := "<a href=x>";
        pending := [{| due := 1; originalText := "Copy code" |}] |}) /\
  ((2000 <= 2000)%nat /\
   elapse 2000 (copyBannerCode (Some "<a href=x>") true b)
   = {| label := "Copy code"; clipboard := "<a href=x>"; pending := [] |}).
Proof.
  intro b.
  assert (H : pending b = []) by reflexivity.
  assert (H1 : (1999 < 2000)%nat) by (apply Nat.ltb_lt; reflexivity).
  assert (H2 : (2000 <= 2000)%nat) by (apply Nat.leb_le; reflexivity).
  split.
  - split; [exact H |]. split; [exact H1 |].
    exact (proj1 (proj2 (copyBannerCode_restores "<a href=x>" true b 1999 H)) H1).
  - split; [exact H2 |].
    exact (proj2 (proj2 (copyBannerCode_restores "<a href=x>" true b 2000 H)) H2).
Defined.

(** Two or more clicks before the first timer fires leave the label at
    'Copied!' for good: every click after the first remembers 'Copied!' as
    the text to put back, so once all timers have fired the original label
    is lost. *)
Theorem copyBannerCode_stuck (text : string) (copied : bool) (b : banner)
    (n : nat) :
  pending b = [] ->
  (2 <= n)%nat ->
  Nat.iter n expire (Nat.iter n (copyBannerCode (Some text) copied) b)
  = {| label := "Copied!";
       clipboard := if copied then text else clipboard b;
       pending := [] |}.
Proof.
  intros Hp Hn. destruct n as [| [| m]]; try lia.
  rewrite (clicks_pending text copied b (S m) Hp).
  set (first := {| due := 2000; originalText := label b |}).
  set (later := {| due := 2000; originalText := "Copied!" |}).
  replace (S (S m))
    with (List.length (first :: repeat later (S m)))
    by (cbn [List.length]; now rewrite repeat_length).
  rewrite expire_all. f_equal.
  cbn [repeat]. rewrite <- repeat_snoc, app_comm_cons, map_app.
  apply last_last.
Qed.

Lemma copyBannerCode_stuck_witness :
  let b := {| label := "Copy code"; clipboard := ""; pending := [] |} in
  pending b = [] /\ (2 <= 2)%nat /\
  Nat.iter 2 expire (Nat.iter 2 (copyBannerCode (Some "<a href=x>") true) b)
  = {| label := "Copied!"; clipboard := "<a href=x>"; pending := [] |}.
Proof.
  intro b.
  assert (H1 : pending b = []) by reflexivity.
  assert (H2 : (2 <= 2)%nat) by lia.
  split; [exact H1 |]. split; [exact H2 |].
  exact (copyBannerCode_stuck "<a href=x>" true b 2 H1 H2).
Defined.

(** [copyReferralLink] never looks at what the copy command returns: with
    the link field present it shows the same success toast whether or not
    anything was copied, and a failed copy leaves the clipboard as it was;
    without the field it shows the danger toast and copies nothing. *)
Theorem copyReferralLink_reports (text clipboard : string) (copied : bool) :
  fst (copyReferralLink (Some text) copied clipboard)
    = ([InsertAlert "alert alert-success"
          (JStr "Referral link copied to clipboard!");
        SetTimeout RemoveAlert 5000], Ok tt) /\
  snd (copyReferralLink (Some text) false clipboard) = clipboard /\
  snd (copyReferralLink (Some text) true clipboard) = text /\
  copyReferralLink None copied clipboard
    = (([InsertAlert "alert alert-danger" (JStr "Referral link not found");
         SetTimeout RemoveAlert 5000], Ok tt), clipboard).
Proof. repeat split. Qed.

(** ** Toasts are transient *)

Lemma toasts_expire_skip (a b : list effect) :
  forallb (fun e => negb (is_alert e)) a = true ->
  toasts_expire (a ++ b) = toasts_expire b.
Proof.
  induction a as [| e a IH]; [reflexivity |].
  cbn [forallb]. intro H. apply andb_prop in H as [He Ha].
  destruct e; try discriminate He; cbn [app toasts_expire]; exact (IH Ha).
Qed.

Lemma toasts_expire_quiet (t : list effect) :
  forallb (fun e => negb (is_alert e)) t = true -> toasts_expire t = true.
Proof.
  intro H. rewrite <- (app_nil_r t). now rewrite toasts_expire_skip.
Qed.

Lemma updateCartCount_no_alert (pg : page) :
  forallb (fun e => negb (is_alert e)) (effects (updateCartCount pg)) = true.
Proof.
  apply forallb_forall. intros e He.
  pose proof (updateCartCount_requests pg e He) as _.
  assert (H : emits_only (fun e => negb (is_alert e) = true) (updateCartCount pg)).
  { unfold updateCartCount.
    destruct (URLS pg) as [urls |]; [| now apply emits_only_emit].
    destruct (cartCount urls) as [[| c u'] |]; try now apply emits_only_emit.
    apply emits_only_bind; [now apply emits_only_emit |].
    intros _. apply emits_only_then_catch; [| now apply emits_only_emit].
    intros data. destruct (getElementById pg "cartCount");
      [| apply emits_only_ret].
    apply emits_only_bind; [apply emits_only_lift |].
    intros count. now apply emits_only_emit. }
  exact (H e He).
Qed.

Lemma outcome_toasts_expire (pg : page) (op : operation) (settled : option jsval) :
  toasts_expire (outcome pg op settled) = true.
Proof.
  unfold outcome.
  destruct settled as [data |]; [| destruct op; reflexivity].
  destruct (get_prop data "success") as [success | x]; [| destruct op; reflexivity].
  destruct (truthy success).
  - destruct op; try reflexivity.
    cbn [on_success toast app toasts_expire].
    apply toasts_expire_quiet, updateCartCount_no_alert.
  - destruct (get_prop data "message"); destruct op; reflexivity.
Qed.

(** No toast stays: in every run of every handler, whatever the page and the
    answers, each toast shown is followed at once by the timer that removes
    it after 5000 ms. *)
Theorem toasts_are_transient (pg : page) (op : operation) :
  toasts_expire (effects (run pg op)) = true.
Proof.
  destruct (first_fetch (effects (run pg op))) as [req |] eqn:H.
  - rewrite (run_sent pg op req H).
    rewrite toasts_expire_skip
      by (unfold prelude; destruct op; try reflexivity;
          destruct (element_value _); reflexivity).
    cbn [toasts_expire]. apply outcome_toasts_expire.
  - destruct op; cbv beta iota delta [run] in H |- *.
    + unfold addToCart in H |- *.
      destruct (getCookie _ _) as [token | e]; [| reflexivity].
      rewrite bind_lift_ok, first_fetch_fetch_json in H. discriminate H.
    + unfold updateQuantity in H |- *.
      destruct (lt_one quantity); [reflexivity |].
      destruct (getCookie _ _) as [token | e]; [| reflexivity].
      rewrite bind_lift_ok, first_fetch_fetch_json in H. discriminate H.
    + unfold removeFromCart in H |- *.
      rewrite effects_confirm_bind in H |- *.
      rewrite first_fetch_skip in H by discriminate.
      destruct (confirm pg _); [| reflexivity].
      destruct (getCookie _ _) as [token | e]; [| reflexivity].
      rewrite bind_lift_ok, first_fetch_fetch_json in H. discriminate H.
    + unfold applyCoupon in H |- *.
      destruct (element_value _) as [[| c code'] |];
        [reflexivity | | reflexivity].
      destruct (getCookie _ _) as [token | e]; [| reflexivity].
      rewrite bind_lift_ok, first_fetch_fetch_json in H. discriminate H.
    + unfold requestWithdrawal in H |- *.
      destruct (element_value _) as [[| c amount'] |];
        [reflexivity | | reflexivity].
      destruct (le_zero _); [reflexivity |].
      rewrite effects_confirm_bind in H |- *.
      rewrite first_fetch_skip in H by discriminate.
      destruct (confirm pg _); [| reflexivity].
      destruct (getCookie _ _) as [token | e]; [| reflexivity].
      rewrite bind_lift_ok, first_fetch_fetch_json in H. discriminate H.
    + unfold updateBankDetails in H |- *.
      destruct (getElementById pg "bankDetailsForm") as [form |];
        [| reflexivity].
      destruct (getCookie _ _) as [token | e]; [| reflexivity].
      rewrite bind_lift_ok, first_fetch_fetch_json in H. discriminate H.
Qed.
